(** * metrics_snapshot_spider: a shallow embedding and its properties

    The spider of [metrics_snapshot_spider.py] walks a paginated listing,
    builds one ten-column row per detail page, buffers the rows and writes
    them to an SQLite table with [INSERT OR REPLACE] under
    [UNIQUE(code, target_date)].

    Python state is threaded explicitly: every method is a function from
    the state of the spider (its attributes together with the database the
    connection talks to) to an outcome and a new state.  An exception keeps
    the state reached when it was raised, as attribute mutation does in
    Python. *)

From Stdlib Require Import List ZArith NArith Bool Lia String Ascii.
Import ListNotations.
Open Scope Z_scope.

(* ------------------------------------------------------------------ *)
(** ** Python strings *)

(** A [str] is a sequence of Unicode code points. *)
Definition pystr := list N.

(** An ASCII literal as a [str]. *)
Definition str_of (s : string) : pystr :=
  map N_of_ascii (list_ascii_of_string s).

(** The double quote, which the XPath literals of the source contain. *)
Definition dq : pystr := [34%N].
Definition quoted (s : string) : pystr := dq ++ str_of s ++ dq.

Fixpoint str_eqb (a b : pystr) : bool :=
  match a, b with
  | [], [] => true
  | x :: a', y :: b' => N.eqb x y && str_eqb a' b'
  | _, _ => false
  end.

(** [str.isspace] on one code point: the characters CPython's
    [_PyUnicode_IsWhitespace] accepts. *)
Definition isspace (c : N) : bool :=
  match c with
  | 9 | 10 | 11 | 12 | 13 | 28 | 29 | 30 | 31 | 32
  | 133 | 160 | 5760
  | 8192 | 8193 | 8194 | 8195 | 8196 | 8197 | 8198 | 8199 | 8200 | 8201 | 8202
  | 8232 | 8233 | 8239 | 8287 | 12288 => true
  | _ => false
  end%N.

Fixpoint lstrip (s : pystr) : pystr :=
  match s with
  | [] => []
  | c :: s' => if isspace c then lstrip s' else s
  end.

Definition rstrip (s : pystr) : pystr := rev (lstrip (rev s)).

(** [s.strip()] *)
Definition strip (s : pystr) : pystr := rstrip (lstrip s).

(** [s.endswith(suffix)] *)
Definition endswith (s suffix : pystr) : bool :=
  (List.length suffix <=? List.length s)%nat
  && str_eqb (skipn (List.length s - List.length suffix) s) suffix.

(** Truthiness of a [str]: the empty string is false. *)
Definition str_truthy (s : pystr) : bool :=
  match s with [] => false | _ => true end.

(** Truthiness of a value that is [None] or a [str]. *)
Definition truthy (v : option pystr) : bool :=
  match v with Some s => str_truthy s | None => false end.

(** The sentinel of a field that was not found. *)
Definition NA : pystr := str_of "N/A".
Definition pct : pystr := str_of "%".

(** [_with_pct]: [s = (s or "").strip()], the sentinel for an empty or
    sentinel value, else the value with a trailing percent sign. *)
Definition or_empty (s : option pystr) : pystr :=
  match s with
  | Some v => if str_truthy v then v else []
  | None => []
  end.

Definition _with_pct (s : option pystr) : pystr :=
  let s := strip (or_empty s) in
  if negb (str_truthy s) || str_eqb s NA then NA
  else if endswith s pct then s else s ++ pct.

(** From the specification's wording of [normalize_percentage]: an empty
    or sentinel value is returned unchanged, any other value gets a
    percent sign unless it ends with one. *)
Definition normalize_percentage_spec (value : pystr) : pystr :=
  if negb (str_truthy value) || str_eqb value NA then value
  else if endswith value pct then value else value ++ pct.

(* ------------------------------------------------------------------ *)
(** ** Outcomes of Python code *)

Inductive exn := ValueError | TypeError | KeyError | DatabaseError.

Inductive outcome (A : Type) :=
| Ok (a : A)
| Raise (e : exn).
Arguments Ok {A} a.
Arguments Raise {A} e.

Definition raised {A} (o : outcome A) : bool :=
  match o with Ok _ => false | Raise _ => true end.

(* ------------------------------------------------------------------ *)
(** ** The table [metrics_snapshot] *)

(** One tuple of [_buf], one row of the table.  The first column is
    [self.target_date], which is [None] when no date was given; the
    others are strings by construction. *)
Record Row := mkRow {
  col_target_date : option pystr;
  col_code : pystr;
  col_sector : pystr;
  col_name : pystr;
  col_price_text : pystr;
  col_pe : pystr;
  col_dividend_yield : pystr;
  col_pb : pystr;
  col_roe : pystr;
  col_earning_yield : pystr
}.

(** [UNIQUE(code, target_date)]: two rows collide when both columns are
    equal; SQLite never takes a NULL to be equal to anything. *)
Definition same_key (code : pystr) (date : option pystr) (r : Row) : bool :=
  match date, col_target_date r with
  | Some d, Some d' => str_eqb code (col_code r) && str_eqb d d'
  | _, _ => false
  end.

Definition conflict (r r' : Row) : bool :=
  same_key (col_code r) (col_target_date r) r'.

(** [INSERT OR REPLACE]: the rows that collide with the new one are
    deleted, then the new row is inserted. *)
Definition insert_or_replace (t : list Row) (r : Row) : list Row :=
  filter (fun r' => negb (conflict r r')) t ++ [r].

(** [executemany] of the statement: one [INSERT OR REPLACE] per tuple, in
    order. *)
Definition upsert_many (rows : list Row) (t : list Row) : list Row :=
  fold_left insert_or_replace rows t.

(** The database file and the connection to it: [durable] is what has
    been committed ([None]: the table does not exist), [working] what the
    connection sees, with its uncommitted writes. *)
Record database := mkDb {
  durable : option (list Row);
  working : option (list Row);
  opened : bool
}.

Inductive stmt := PragmaJournalWAL | PragmaSynchronousNormal | CreateTable.

Inductive dbcall :=
| Connect
| Execute (q : stmt)
| Executemany (rows : list Row)
| Commit
| Close.

Definition create_if_absent (t : option (list Row)) : option (list Row) :=
  match t with None => Some [] | Some _ => t end.

(** What a call does to the database when SQLite accepts it; [None] when
    it refuses (closed connection, no such table).  A [CREATE TABLE] runs
    outside a transaction and is durable at once. *)
Definition effect (c : dbcall) (d : database) : option database :=
  match c with
  | Connect => Some (mkDb (durable d) (durable d) true)
  | Close => Some (mkDb (durable d) (durable d) false)
  | Execute q =>
      if opened d then
        match q with
        | CreateTable =>
            Some (mkDb (create_if_absent (durable d))
                       (create_if_absent (working d)) true)
        | _ => Some d
        end
      else None
  | Executemany rows =>
      if opened d then
        match working d with
        | Some t => Some (mkDb (durable d) (Some (upsert_many rows t)) true)
        | None => None
        end
      else None
  | Commit =>
      if opened d then Some (mkDb (working d) (working d) true) else None
  end.

(* ------------------------------------------------------------------ *)
(** ** Documents, requests and log lines *)

(** A parsel selector: the string [.get()] extracts from it, and what
    [.xpath(q)] selects under it (an invalid query raises). *)
#[warnings="-register-all"]
Inductive Selector :=
| Sel (data : pystr) (query : pystr -> outcome (list Selector)).

Definition xpath (s : Selector) (q : pystr) : outcome (list Selector) :=
  match s with Sel _ query => query q end.

(** [SelectorList.get()]: the first match, or [None]. *)
Definition get (l : list Selector) : option pystr :=
  match l with
  | Sel data _ :: _ => Some data
  | [] => None
  end.

(** [sel.xpath(q).get()] *)
Definition xpath_get (s : Selector) (q : pystr) : outcome (option pystr) :=
  match xpath s q with
  | Ok nodes => Ok (get nodes)
  | Raise e => Raise e
  end.

Record Response := mkResponse {
  resp_url : pystr;
  resp_sel : Selector;
  resp_meta : list (pystr * pystr)
}.

Inductive callback := ParseList | ParseDetail.

(** A URL as the spider hands it to the engine: a literal, or
    [response.urljoin(href)]. *)
Inductive url :=
| Literal (u : pystr)
| Urljoin (base href : pystr).

Record request := mkRequest {
  req_url : url;
  req_callback : callback;
  req_meta : list (pystr * pystr);
  dont_filter : bool
}.

Inductive logmsg :=
| LogParse (parsed queued : Z)
| LogCommit (rows : Z)
| LogClose (reason : pystr) (queued parsed : Z).

(** What the spider does to the outside: a database call (and whether it
    raised) or a log line. *)
Inductive event :=
| Db (c : dbcall) (failed : bool)
| Log (m : logmsg).

(* ------------------------------------------------------------------ *)
(** ** The spider *)

(** The attributes of the spider, the database behind [self.conn], the
    requests its generators have yielded and the journal of its calls.
    [faults] is the schedule of the database: its next call raises when
    the head is [true]; an exhausted schedule raises no more. *)
Record state := mkState {
  target_date : option pystr;
  batch_size : Z;
  _buf : list Row;
  _queued : Z;
  _parsed : Z;
  db : database;
  faults : list bool;
  journal : list event;
  yielded : list request
}.

Definition set_target_date v s :=
  mkState v (batch_size s) (_buf s) (_queued s) (_parsed s) (db s)
          (faults s) (journal s) (yielded s).
Definition set_batch_size v s :=
  mkState (target_date s) v (_buf s) (_queued s) (_parsed s) (db s)
          (faults s) (journal s) (yielded s).
Definition set_buf v s :=
  mkState (target_date s) (batch_size s) v (_queued s) (_parsed s) (db s)
          (faults s) (journal s) (yielded s).
Definition set_queued v s :=
  mkState (target_date s) (batch_size s) (_buf s) v (_parsed s) (db s)
          (faults s) (journal s) (yielded s).
Definition set_parsed v s :=
  mkState (target_date s) (batch_size s) (_buf s) (_queued s) v (db s)
          (faults s) (journal s) (yielded s).
Definition set_db v s :=
  mkState (target_date s) (batch_size s) (_buf s) (_queued s) (_parsed s) v
          (faults s) (journal s) (yielded s).
Definition set_faults v s :=
  mkState (target_date s) (batch_size s) (_buf s) (_queued s) (_parsed s)
          (db s) v (journal s) (yielded s).
Definition emit e s :=
  mkState (target_date s) (batch_size s) (_buf s) (_queued s) (_parsed s)
          (db s) (faults s) (journal s ++ [e]) (yielded s).
Definition push_request r s :=
  mkState (target_date s) (batch_size s) (_buf s) (_queued s) (_parsed s)
          (db s) (faults s) (journal s) (yielded s ++ [r]).

(** Computations of the spider. *)
Definition M (A : Type) := state -> outcome A * state.

Definition ret {A} (a : A) : M A := fun s => (Ok a, s).
Definition raise {A} (e : exn) : M A := fun s => (Raise e, s).
Definition bind {A B} (m : M A) (k : A -> M B) : M B :=
  fun s =>
    match m s with
    | (Ok a, s') => k a s'
    | (Raise e, s') => (Raise e, s')
    end.
Definition gets {A} (f : state -> A) : M A := fun s => (Ok (f s), s).
Definition modify (f : state -> state) : M unit := fun s => (Ok tt, f s).
Definition lift {A} (o : outcome A) : M A := fun s => (o, s).

Declare Scope spider_scope.
Delimit Scope spider_scope with spider.
Notation "x <- m ;; k" := (bind m (fun x => k))
  (at level 100, m at next level, right associativity) : spider_scope.
Notation "m ;; k" := (bind m (fun _ => k))
  (at level 100, right associativity) : spider_scope.
Open Scope spider_scope.

(** [try: m  except Exception: h] *)
Definition try_except {A} (m : M A) (h : exn -> M A) : M A :=
  fun s =>
    match m s with
    | (Raise e, s') => h e s'
    | r => r
    end.

(** [try: m  finally: fin] *)
Definition try_finally {A} (m : M A) (fin : M unit) : M A :=
  fun s =>
    match m s with
    | (r, s') =>
        match fin s' with
        | (Ok _, s'') => (r, s'')
        | (Raise e, s'') => (Raise e, s'')
        end
    end.

(** [for x in l: body x] *)
Fixpoint for_each {A} (l : list A) (body : A -> M unit) : M unit :=
  match l with
  | [] => ret tt
  | x :: l' => body x ;; for_each l' body
  end.

Definition yield (r : request) : M unit := modify (push_request r).
Definition log (m : logmsg) : M unit := modify (emit (Log m)).

(** One call on the connection or its cursor. *)
Definition db_call (c : dbcall) : M unit :=
  fun s =>
    let s1 := set_faults (tl (faults s)) s in
    if hd false (faults s) then (Raise DatabaseError, emit (Db c true) s1)
    else
      match effect c (db s) with
      | Some d => (Ok tt, emit (Db c false) (set_db d s1))
      | None => (Raise DatabaseError, emit (Db c true) s1)
      end.

(** The XPath queries of the source. *)
Definition xp_rows : pystr :=
  str_of "//table[contains(@class," ++ quoted "item-list" ++ str_of ")]//tr".
Definition xp_td1_text : pystr := str_of "./td[1]//text()".
Definition xp_td2_text : pystr := str_of "./td[2]//text()".
Definition xp_td2_href : pystr := str_of "./td[2]//a/@href".
Definition xp_next : pystr :=
  str_of "//a[normalize-space(text())=" ++ quoted "Next" ++ str_of "]/@href".

Definition xp_main (tag cls : string) : pystr :=
  str_of "//*[@id=" ++ quoted "main" ++ str_of "]//" ++ str_of tag
  ++ str_of "[@class=" ++ quoted cls ++ str_of "]/text()".
Definition xp_metric (key : string) : pystr :=
  str_of "//*[@id=" ++ quoted "metrics" ++ str_of "]//li[@data-key="
  ++ quoted key ++ str_of "]/span/text()".

Definition xp_sector : pystr := xp_main "span" "category".
Definition xp_price : pystr := xp_main "div" "price".
Definition xp_pe : pystr := xp_metric "pe".
Definition xp_div_yld : pystr := xp_metric "div_yld".
Definition xp_pb : pystr := xp_metric "pb".
Definition xp_roe : pystr := xp_metric "roe".
Definition xp_earn_yld : pystr := xp_metric "earn_yld".

Definition start_urls : list pystr :=
  [str_of "https://example.com/markets/list/"].

(** [response.meta[key]] *)
Fixpoint meta_get (m : list (pystr * pystr)) (key : pystr) : outcome pystr :=
  match m with
  | [] => Raise KeyError
  | (k, v) :: m' => if str_eqb k key then Ok v else meta_get m' key
  end.

(** [_get]: the stripped first match, the sentinel when there is none (or
    an empty one) and when the query raises. *)
Definition _get (resp : Response) (xp : pystr) : pystr :=
  match xpath_get (resp_sel resp) xp with
  | Ok (Some v) => if str_truthy v then strip v else NA
  | Ok None => NA
  | Raise _ => NA
  end.

(** The write of [_flush]: [executemany] of the [INSERT OR REPLACE]
    statement over the tuples, then [commit]. *)
Definition upsert (rows : list Row) : M unit :=
  db_call (Executemany rows) ;;
  db_call Commit.

(** [_flush] *)
Definition _flush : M unit :=
  buf <- gets _buf ;;
  match buf with
  | [] => ret tt
  | _ =>
      upsert buf ;;
      log (LogCommit (Z.of_nat (List.length buf))) ;;
      modify (set_buf [])
  end.

(** [closed] *)
Definition closed (reason : pystr) : M unit :=
  try_finally _flush
    (try_except (db_call Close) (fun _ => ret tt)) ;;
  queued <- gets _queued ;;
  parsed <- gets _parsed ;;
  log (LogClose reason queued parsed).

(** [_init_db] *)
Definition _init_db : M unit :=
  db_call (Execute CreateTable) ;;
  db_call Commit.

(** The tuple [parse_detail] builds. *)
Definition build_row (date : option pystr) (code name : pystr)
    (response : Response) : Row :=
  let sector := _get response xp_sector in
  let price_text := _get response xp_price in
  let pe := _get response xp_pe in
  let dividend_yld := _with_pct (Some (_get response xp_div_yld)) in
  let pb := _get response xp_pb in
  let roe := _with_pct (Some (_get response xp_roe)) in
  let earning_yield := _with_pct (Some (_get response xp_earn_yld)) in
  mkRow date code sector name price_text pe dividend_yld pb roe earning_yield.

(** The append of [parse_detail]: the tuple joins [_buf], [_parsed] is
    incremented and a full buffer is flushed. *)
Definition append (record : Row) : M unit :=
  modify (fun s => set_buf (_buf s ++ [record]) s) ;;
  modify (fun s => set_parsed (_parsed s + 1) s) ;;
  pending <- gets _buf ;;
  threshold <- gets batch_size ;;
  if Z.of_nat (List.length pending) >=? threshold then _flush else ret tt.

(** [parse_detail] *)
Definition parse_detail (response : Response) : M unit :=
  code <- lift (meta_get (resp_meta response) (str_of "code")) ;;
  name <- lift (meta_get (resp_meta response) (str_of "name")) ;;
  date <- gets target_date ;;
  append (build_row date code name response) ;;
  parsed <- gets _parsed ;;
  queued <- gets _queued ;;
  if parsed mod 50 =? 0 then log (LogParse parsed queued) else ret tt.

Section Links.

(** Whether [scrapy.Request] accepts [response.urljoin(href)] on a page at
    [base].  The join and the constructor belong to Scrapy, and the
    spider is modelled over them: the constructor raises [ValueError] on
    a URL without a scheme, as a [javascript:] or [mailto:] link gives. *)
Variable join_accepted : pystr -> pystr -> bool.

(** [scrapy.Request(response.urljoin(href), ...)], which
    [response.follow(href, ...)] makes too. *)
Definition joined_request (base href : pystr) (cb : callback)
    (meta : list (pystr * pystr)) (no_filter : bool) : M request :=
  if join_accepted base href
  then ret (mkRequest (Urljoin base href) cb meta no_filter)
  else raise ValueError.

(** The body of the loop of [parse_list] over the rows of the table: the
    counter is incremented before the request is made. *)
Definition parse_list_row (response : Response) (row : Selector) : M unit :=
  code <- lift (xpath_get row xp_td1_text) ;;
  name <- lift (xpath_get row xp_td2_text) ;;
  detail_href <- lift (xpath_get row xp_td2_href) ;;
  match code, name, detail_href with
  | Some code, Some name, Some detail_href =>
      if str_truthy code && str_truthy name && str_truthy detail_href then
        modify (fun s => set_queued (_queued s + 1) s) ;;
        request <- joined_request (resp_url response) detail_href ParseDetail
                     [(str_of "code", code); (str_of "name", name)] true ;;
        yield request
      else ret tt
  | _, _, _ => ret tt
  end.

(** The end of [parse_list]: the link to the next page. *)
Definition parse_list_next (response : Response) : M unit :=
  next_page <- lift (xpath_get (resp_sel response) xp_next) ;;
  match next_page with
  | Some next_page =>
      if str_truthy next_page then
        request <- joined_request (resp_url response) next_page ParseList
                     [] false ;;
        yield request
      else ret tt
  | None => ret tt
  end.

(** [parse_list] *)
Definition parse_list (response : Response) : M unit :=
  rows <- lift (xpath (resp_sel response) xp_rows) ;;
  for_each rows (parse_list_row response) ;;
  parse_list_next response.

End Links.

(** The values [batch_size] is given as: the default integer, or the
    string of a command-line argument. *)
Inductive pyval :=
| PyNone
| PyInt (z : Z)
| PyStr (s : pystr).

Definition pyval_truthy (v : pyval) : bool :=
  match v with
  | PyNone => false
  | PyInt z => negb (z =? 0)
  | PyStr s => str_truthy s
  end.

Section Builtins.

(** Python's [int] on a string and [datetime.strptime(_, "%Y%m%d")]
    belong to the standard library of Python; the spider is modelled
    over them. *)
Variable int_of_str : pystr -> option Z.
Variable strptime_Ymd : pystr -> bool.

Definition py_int (v : pyval) : outcome Z :=
  match v with
  | PyInt z => Ok z
  | PyStr s =>
      match int_of_str s with
      | Some z => Ok z
      | None => Raise ValueError
      end
  | PyNone => Raise TypeError
  end.

(** [__init__] *)
Definition __init__ (date : option pystr) (size : pyval) : M unit :=
  modify (set_target_date date) ;;
  try_except
    (n <- (if pyval_truthy size then lift (py_int size) else ret 50) ;;
     modify (set_batch_size n) ;;
     n <- gets batch_size ;;
     if n <=? 0 then modify (set_batch_size 50) else ret tt)
    (fun _ => modify (set_batch_size 50)) ;;
  db_call Connect ;;
  db_call (Execute PragmaJournalWAL) ;;
  db_call (Execute PragmaSynchronousNormal) ;;
  db_call Commit ;;
  _init_db ;;
  modify (set_buf []) ;;
  modify (set_queued 0) ;;
  modify (set_parsed 0).

(** [start_requests] *)
Definition start_requests : M unit :=
  date <- gets target_date ;;
  match date with
  | Some d =>
      if str_truthy d then
        (if strptime_Ymd d then ret tt else raise ValueError) ;;
        for_each start_urls
          (fun u => yield (mkRequest (Literal u) ParseList [] true))
      else raise ValueError
  | None => raise ValueError
  end.

(** Construction, then the first step of the crawl. *)
Definition launch (date : option pystr) (size : pyval) : M unit :=
  __init__ date size ;;
  start_requests.

(** A target date the crawl refuses: none, the empty string, or a
    string [strptime] rejects. *)
Definition date_rejected (date : option pystr) : bool :=
  match date with
  | Some d => negb (str_truthy d) || negb (strptime_Ymd d)
  | None => true
  end.

End Builtins.

(** The state before the spider is constructed: no attribute is set, the
    database file holds [file] and the database will behave as [fs]. *)
Definition blank (file : option (list Row)) (fs : list bool) : state :=
  mkState None 0 [] 0 0 (mkDb file file false) fs [] [].

(* ------------------------------------------------------------------ *)
(** ** Observations used in the statements *)

(** The rows the store has accepted, in order: the tuples of the
    [executemany] calls that did not raise. *)
Fixpoint received (j : list event) : list Row :=
  match j with
  | [] => []
  | Db (Executemany rows) false :: j' => rows ++ received j'
  | _ :: j' => received j'
  end.

(** The number of [executemany] calls made, raised or not. *)
Fixpoint writes (j : list event) : nat :=
  match j with
  | [] => 0
  | Db (Executemany _) _ :: j' => S (writes j')
  | _ :: j' => writes j'
  end.

(** The rows of a table that may not exist. *)
Definition rows_of (t : option (list Row)) : list Row :=
  match t with Some rows => rows | None => [] end.

(** A database that raises no more. *)
Definition healthy (fs : list bool) : Prop := Forall (fun b => b = false) fs.

(** An open connection to a database that has the table. *)
Definition ready (d : database) : Prop :=
  opened d = true /\ working d <> None.

(** A row of the listing of which the code, the name or the link is
    missing, each query having been answered. *)
Definition row_missing_field (row : Selector) : bool :=
  match xpath_get row xp_td1_text, xpath_get row xp_td2_text,
        xpath_get row xp_td2_href with
  | Ok code, Ok name, Ok href =>
      negb (truthy code && truthy name && truthy href)
  | _, _, _ => false
  end.

(** From the specification's wording of a configuration error: nothing was
    done to the store, and nothing was handed to the engine. *)
Definition no_activity (before after : state) : Prop :=
  journal after = journal before /\ db after = db before
  /\ yielded after = yielded before.

(** The states of a constructed spider: [__init__] returned, then the
    engine ran [start_requests] and the callbacks, in any order and
    whatever they raised. *)
Inductive reachable (int_of_str : pystr -> option Z)
    (strptime_Ymd : pystr -> bool) (join_accepted : pystr -> pystr -> bool)
  : state -> Prop :=
| reach_init date size file fs s :
    __init__ int_of_str date size (blank file fs) = (Ok tt, s) ->
    reachable int_of_str strptime_Ymd join_accepted s
| reach_start s o s' :
    reachable int_of_str strptime_Ymd join_accepted s ->
    start_requests strptime_Ymd s = (o, s') ->
    reachable int_of_str strptime_Ymd join_accepted s'
| reach_list s response o s' :
    reachable int_of_str strptime_Ymd join_accepted s ->
    parse_list join_accepted response s = (o, s') ->
    reachable int_of_str strptime_Ymd join_accepted s'
| reach_detail s response o s' :
    reachable int_of_str strptime_Ymd join_accepted s ->
    parse_detail response s = (o, s') ->
    reachable int_of_str strptime_Ymd join_accepted s'.

(** A string that does not start with a space. *)
Definition starts_clean (s : pystr) : Prop :=
  match s with [] => True | c :: _ => isspace c = false end.

(** [m] keeps [P]: from a state with [P] it ends, returning or raising,
    in a state with [P]. *)
Definition preserves {A} (P : state -> Prop) (m : M A) : Prop :=
  forall s, P s -> P (snd (m s)).

(** The flush threshold is positive. *)
Definition threshold_set (s : state) : Prop := 0 < batch_size s.

(* ------------------------------------------------------------------ *)
(** ** Sample documents and runs, for the examples *)

Definition text_node (v : pystr) : Selector := Sel v (fun _ => Ok []).

Definition opt_nodes (v : option pystr) : list Selector :=
  match v with Some s => [text_node s] | None => [] end.

(** A row of the listing with the given first cell, second cell and link. *)
Definition listing_row (code name href : option pystr) : Selector :=
  Sel []
    (fun q =>
       if str_eqb q xp_td1_text then Ok (opt_nodes code)
       else if str_eqb q xp_td2_text then Ok (opt_nodes name)
       else if str_eqb q xp_td2_href then Ok (opt_nodes href)
       else Ok []).

(** A listing page with the given rows and link to the next page. *)
Definition listing_page (rows : list Selector) (next : option pystr)
  : Response :=
  mkResponse (str_of "https://example.com/markets/list/")
    (Sel []
       (fun q =>
          if str_eqb q xp_rows then Ok rows
          else if str_eqb q xp_next then Ok (opt_nodes next)
          else Ok []))
    [].

(** A detail page on which exactly the queries of [fields] match. *)
Fixpoint lookup (fields : list (pystr * pystr)) (q : pystr) : option pystr :=
  match fields with
  | [] => None
  | (k, v) :: fields' => if str_eqb k q then Some v else lookup fields' q
  end.

Definition detail_page (code name : string) (fields : list (pystr * pystr))
  : Response :=
  mkResponse (str_of "https://example.com/markets/detail")
    (Sel [] (fun q => Ok (opt_nodes (lookup fields q))))
    [(str_of "code", str_of code); (str_of "name", str_of name)].

(** A page whose every query raises. *)
Definition broken_page : Response :=
  mkResponse [] (Sel [] (fun _ => Raise ValueError)) [].

Definition sample_row (code : string) : Row :=
  mkRow (Some (str_of "20240115")) (str_of code) (str_of "Foods")
    (str_of "Acme") (str_of "1,234") (str_of "12.3") (str_of "2.5%")
    (str_of "1.1") (str_of "8.0%") (str_of "6.1%").

(** Stand-ins for Python's builtins in the examples: an [int] that
    refuses every string, a [strptime] that accepts every string. *)
Definition int_refusing : pystr -> option Z := fun _ => None.
Definition strptime_accepting : pystr -> bool := fun _ => true.

(** Stand-ins for Scrapy's [Request] in the examples: one that accepts
    every joined link, one that refuses the links that start with
    [javascript:]. *)
Definition join_accepting : pystr -> pystr -> bool := fun _ _ => true.
Definition join_refusing_javascript : pystr -> pystr -> bool :=
  fun _ href =>
    negb (str_eqb (firstn 11 href) (str_of "javascript:")).

(** A spider constructed for 20240115 with a threshold of 2, on a fresh
    database that never fails. *)
Definition sample_spider : state :=
  snd (__init__ int_refusing (Some (str_of "20240115")) (PyInt 2)
         (blank None [])).

(** The same spider on a database that lets [__init__] through and then
    fails twice. *)
Definition sample_flaky : state :=
  snd (__init__ int_refusing (Some (str_of "20240115")) (PyInt 2)
         (blank None [false; false; false; false; false; false; true; true])).

(** The sample spider with one record pending. *)
Definition sample_pending : state :=
  snd (append (sample_row "1301") sample_spider).

(** The sample spider with one record pending and a database whose next
    call raises. *)
Definition sample_failing : state := set_faults [true] sample_pending.

(** Three rows of a listing: the second has no link. *)
Definition good_row_1 : Selector :=
  listing_row (Some (str_of "1301")) (Some (str_of "Acme"))
    (Some (str_of "/d/1301")).
Definition bad_row : Selector :=
  listing_row (Some (str_of "1305")) (Some (str_of "Nolink")) None.
Definition good_row_2 : Selector :=
  listing_row (Some (str_of "1332")) (Some (str_of "Bolt"))
    (Some (str_of "/d/1332")).

Definition script_row : Selector :=
  listing_row (Some (str_of "1377")) (Some (str_of "Script"))
    (Some (str_of "javascript:void(0)")).

(** A detail page with a sector and a return on equity, nothing else. *)
Definition sample_detail (code name : string) : Response :=
  detail_page code name
    [(xp_sector, str_of " Foods "); (xp_roe, str_of "8.0")].

(* ------------------------------------------------------------------ *)
(** ** Further observations *)

(** A request for a detail page as [parse_list] makes them: the link
    joined to the page's URL, the code and the name in [meta], none of the
    three empty, and no duplicate filtering. *)
Definition stub_request (base : pystr) (r : request) : Prop :=
  exists code name href,
    code <> [] /\ name <> [] /\ href <> []
    /\ r = mkRequest (Urljoin base href) ParseDetail
             [(str_of "code", code); (str_of "name", name)] true.

(** [s'] differs from [s] at most in the requests yielded and in
    [_queued]: the store, the journal, the buffer and [_parsed] are the
    same. *)
Definition crawl_only (s s' : state) : Prop :=
  db s' = db s /\ journal s' = journal s /\ _buf s' = _buf s
  /\ _parsed s' = _parsed s /\ faults s' = faults s
  /\ batch_size s' = batch_size s /\ target_date s' = target_date s.

(** The request [parse_list] makes for the next page. *)
Definition next_request (base href : pystr) : request :=
  mkRequest (Urljoin base href) ParseList [] false.

(** The code, the name and the link of a row that has all three. *)
Definition row_fields (row : Selector) : option (pystr * pystr * pystr) :=
  match xpath_get row xp_td1_text, xpath_get row xp_td2_text,
        xpath_get row xp_td2_href with
  | Ok (Some code), Ok (Some name), Ok (Some href) =>
      if str_truthy code && str_truthy name && str_truthy href
      then Some (code, name, href) else None
  | _, _, _ => None
  end.

(** The request for the detail page of a row: one for a row that has
    its three fields, none for another. *)
Definition row_stubs (base : pystr) (row : Selector) : list request :=
  match row_fields row with
  | Some (code, name, href) =>
      [mkRequest (Urljoin base href) ParseDetail
         [(str_of "code", code); (str_of "name", name)] true]
  | None => []
  end.

(** The request for the next page of a listing, if it links to one. *)
Definition next_link (response : Response) : list request :=
  match xpath_get (resp_sel response) xp_next with
  | Ok (Some href) =>
      if str_truthy href then [next_request (resp_url response) href]
      else []
  | _ => []
  end.

(** A row whose target date is a string, so that its key can collide. *)
Definition keyed (r : Row) : Prop := col_target_date r <> None.

(** No two rows of the table share a key. *)
Definition unique_keys (t : list Row) : Prop :=
  forall r d, In r t -> col_target_date r = Some d ->
    filter (same_key (col_code r) (Some d)) t = [r].

(** The six database calls of [__init__], none of which raised. *)
Definition init_journal : list event :=
  [Db Connect false; Db (Execute PragmaJournalWAL) false;
   Db (Execute PragmaSynchronousNormal) false; Db Commit false;
   Db (Execute CreateTable) false; Db Commit false].

(** The request [start_requests] makes for a start URL. *)
Definition start_request (u : pystr) : request :=
  mkRequest (Literal u) ParseList [] true.

(* ================================================================== *)
(** * Properties *)

(* ------------------------------------------------------------------ *)
(** ** Strings *)

Lemma str_eqb_eq (a b : pystr) : str_eqb a b = true <-> a = b.
Proof.
  revert b; induction a as [|x a IH]; intros [|y b]; simpl; split;
    try congruence; try reflexivity.
  - intros H. apply andb_true_iff in H as [Hx Hab].
    apply N.eqb_eq in Hx. apply IH in Hab. congruence.
  - intros H. injection H as -> ->.
    rewrite N.eqb_refl. simpl. now apply IH.
Qed.

Lemma str_eqb_refl (a : pystr) : str_eqb a a = true.
Proof. now apply str_eqb_eq. Qed.

Lemma str_eqb_neq (a b : pystr) : str_eqb a b = false <-> a <> b.
Proof.
  split.
  - intros H E. apply str_eqb_eq in E. congruence.
  - intros H. destruct (str_eqb a b) eqn:E; [|reflexivity].
    apply str_eqb_eq in E. contradiction.
Qed.

Lemma str_truthy_false (s : pystr) : str_truthy s = false <-> s = [].
Proof. destruct s; simpl; split; congruence. Qed.

Lemma str_truthy_true (s : pystr) : str_truthy s = true <-> s <> [].
Proof. destruct s; simpl; split; congruence. Qed.

(** [endswith] is the suffix relation. *)
Lemma endswith_iff (s suffix : pystr) :
  endswith s suffix = true <-> exists p, s = p ++ suffix.
Proof.
  unfold endswith. rewrite andb_true_iff, Nat.leb_le, str_eqb_eq. split.
  - intros [_ H].
    exists (firstn (List.length s - List.length suffix) s).
    rewrite <- H at 2. symmetry. apply firstn_skipn.
  - intros [p ->]. rewrite length_app. split; [lia|].
    replace (List.length p + List.length suffix - List.length suffix)%nat
      with (List.length p + 0)%nat by lia.
    rewrite skipn_app, Nat.add_0_r, skipn_all.
    replace (List.length p - List.length p)%nat with 0%nat by lia.
    reflexivity.
Qed.

Lemma lstrip_starts_clean (s : pystr) : starts_clean (lstrip s).
Proof.
  induction s as [|c s IH]; simpl; [exact I|].
  destruct (isspace c) eqn:E; [exact IH|exact E].
Qed.

Lemma lstrip_fixed (s : pystr) : starts_clean s -> lstrip s = s.
Proof. destruct s as [|c s]; simpl; [reflexivity|]. now intros ->. Qed.

Lemma lstrip_suffix (s : pystr) : exists w, s = w ++ lstrip s.
Proof.
  induction s as [|c s [w IH]]; simpl.
  - now exists [].
  - destruct (isspace c).
    + exists (c :: w). simpl. now f_equal.
    + now exists [].
Qed.

Lemma rstrip_prefix (s : pystr) : exists w, s = rstrip s ++ w.
Proof.
  unfold rstrip. destruct (lstrip_suffix (rev s)) as [w H].
  exists (rev w). rewrite <- rev_app_distr, <- H. symmetry. apply rev_involutive.
Qed.

Lemma starts_clean_prefix (p w : pystr) : starts_clean (p ++ w) -> starts_clean p.
Proof. destruct p; simpl; auto. Qed.

Lemma strip_starts_clean (s : pystr) : starts_clean (strip s).
Proof.
  unfold strip. destruct (rstrip_prefix (lstrip s)) as [w H].
  apply starts_clean_prefix with w. rewrite <- H. apply lstrip_starts_clean.
Qed.

Lemma strip_ends_clean (s : pystr) : starts_clean (rev (strip s)).
Proof.
  unfold strip, rstrip. rewrite rev_involutive. apply lstrip_starts_clean.
Qed.

(** A string with no space at either end is its own [strip]. *)
Lemma strip_fixed (s : pystr) :
  starts_clean s -> starts_clean (rev s) -> strip s = s.
Proof.
  intros H1 H2. unfold strip, rstrip.
  rewrite (lstrip_fixed s H1), (lstrip_fixed _ H2). apply rev_involutive.
Qed.

Lemma strip_idempotent (s : pystr) : strip (strip s) = strip s.
Proof. apply strip_fixed; [apply strip_starts_clean|apply strip_ends_clean]. Qed.

Lemma strip_app_pct (t : pystr) :
  t <> [] -> starts_clean t -> strip (t ++ pct) = t ++ pct.
Proof.
  intros Hne Ht. apply strip_fixed.
  - destruct t; [contradiction|exact Ht].
  - rewrite rev_app_distr. reflexivity.
Qed.

(** [_with_pct] by cases on the stripped value. *)
Lemma with_pct_cases (s : option pystr) :
  let t := strip (or_empty s) in
  ((t = [] \/ t = NA) /\ _with_pct s = NA)
  \/ (t <> [] /\ t <> NA /\ endswith t pct = true /\ _with_pct s = t)
  \/ (t <> [] /\ t <> NA /\ endswith t pct = false /\ _with_pct s = t ++ pct).
Proof.
  intros t. unfold _with_pct. fold t.
  destruct (str_truthy t) eqn:Ht; simpl.
  - destruct (str_eqb t NA) eqn:Hna.
    + left. apply str_eqb_eq in Hna. auto.
    + apply str_truthy_true in Ht. apply str_eqb_neq in Hna.
      destruct (endswith t pct) eqn:He; [right; left|right; right]; auto.
  - left. apply str_truthy_false in Ht. auto.
Qed.

Lemma with_pct_of_clean (t : pystr) :
  t <> [] -> strip t = t ->
  _with_pct (Some t) = normalize_percentage_spec t.
Proof.
  intros Hne Hfix. unfold _with_pct, normalize_percentage_spec, or_empty.
  apply str_truthy_true in Hne. rewrite Hne, Hfix, Hne. simpl.
  destruct (str_eqb t NA) eqn:E; [|reflexivity].
  apply str_eqb_eq in E. now subst.
Qed.

(** C3, as the specification words it, fails on the empty value: it is not
    returned unchanged, the code answers with the sentinel. *)
Lemma with_pct_empty_not_unchanged :
  _with_pct (Some []) = NA
  /\ _with_pct (Some []) <> normalize_percentage_spec [].
Proof. split; [reflexivity|discriminate]. Qed.

(** C3 (amended): [_with_pct] strips its argument ([None] counting as the
    empty string); a stripped value that is empty gives the sentinel
    ["N/A"], and on any other stripped value the result is what the
    specification words: the sentinel unchanged, a value that ends with a
    percent sign unchanged, any other value with one appended. *)
Theorem with_pct_normalizes (s : option pystr) :
  let t := strip (or_empty s) in
  (t = [] -> _with_pct s = NA)
  /\ (t = NA -> _with_pct s = t)
  /\ (t <> [] -> t <> NA -> endswith t pct = true -> _with_pct s = t)
  /\ (t <> [] -> t <> NA -> endswith t pct = false -> _with_pct s = t ++ pct)
  /\ (t <> [] -> _with_pct s = normalize_percentage_spec t).
Proof.
  intros t.
  destruct (with_pct_cases s) as [[H R]|[(H1 & H2 & H3 & R)|(H1 & H2 & H3 & R)]];
    fold t in H, R || fold t in H1, H2, H3, R.
  - repeat split; intros; try (destruct H; congruence).
    destruct H as [H|H]; [contradiction|].
    rewrite R, H. reflexivity.
  - repeat split; intros; try congruence.
    rewrite R. unfold normalize_percentage_spec.
    apply str_truthy_true in H1. apply str_eqb_neq in H2.
    now rewrite H1, H2, H3.
  - repeat split; intros; try congruence.
    rewrite R. unfold normalize_percentage_spec.
    apply str_truthy_true in H1. apply str_eqb_neq in H2.
    now rewrite H1, H2, H3.
Qed.

Lemma with_pct_normalizes_witness :
  _with_pct (Some (str_of " 3.5 ")) = str_of "3.5" ++ pct.
Proof.
  apply (with_pct_normalizes (Some (str_of " 3.5 "))); vm_compute;
    congruence.
Defined.

(** C4, as stated, fails on the empty string: it is not the sentinel, yet
    the result carries no percent sign. *)
Lemma with_pct_empty_no_percent :
  ([] : pystr) <> NA /\ endswith (_with_pct (Some [])) pct = false.
Proof. split; [discriminate|reflexivity]. Qed.

(** C4 (amended): for every input whose stripped form is neither empty
    nor the sentinel, the result of [_with_pct] ends with a percent sign;
    and for every input, applying [_with_pct] twice gives what applying
    it once gives. *)
Theorem with_pct_percent_idempotent (s : option pystr) :
  (strip (or_empty s) <> [] -> strip (or_empty s) <> NA ->
   exists p, _with_pct s = p ++ pct)
  /\ _with_pct (Some (_with_pct s)) = _with_pct s.
Proof.
  destruct (with_pct_cases s) as [[H R]|[(H1 & H2 & H3 & R)|(H1 & H2 & H3 & R)]].
  - split; [intros; destruct H; contradiction|].
    rewrite R. reflexivity.
  - split; [intros _ _; rewrite R; now apply endswith_iff|].
    rewrite R, with_pct_of_clean by (auto using strip_idempotent).
    unfold normalize_percentage_spec.
    apply str_truthy_true in H1. apply str_eqb_neq in H2.
    now rewrite H1, H2, H3.
  - split; [intros _ _; rewrite R; eauto|].
    rewrite R.
    assert (Hne : strip (or_empty s) ++ pct <> [])
      by (destruct (strip (or_empty s)); discriminate).
    rewrite with_pct_of_clean;
      [|exact Hne|apply strip_app_pct; [exact H1|apply strip_starts_clean]].
    unfold normalize_percentage_spec.
    apply str_truthy_true in Hne. rewrite Hne. simpl.
    assert (He : endswith (strip (or_empty s) ++ pct) pct = true)
      by (apply endswith_iff; eauto).
    destruct (str_eqb (strip (or_empty s) ++ pct) NA) eqn:E.
    + apply str_eqb_eq in E. rewrite E in He. discriminate He.
    + now rewrite He.
Qed.

Lemma with_pct_percent_idempotent_witness :
  exists p, _with_pct (Some (str_of "12")) = p ++ pct.
Proof.
  apply (with_pct_percent_idempotent (Some (str_of "12"))); vm_compute;
    congruence.
Defined.

(* ------------------------------------------------------------------ *)
(** ** The database schedule *)

Lemma healthy_hd (fs : list bool) : healthy fs -> hd false fs = false.
Proof. intros H. destruct H; simpl; auto. Qed.

Lemma healthy_tl (fs : list bool) : healthy fs -> healthy (tl fs).
Proof. intros H. destruct H; simpl; auto. constructor. Qed.

Create HintDb spider.
#[local] Hint Resolve healthy_hd healthy_tl : spider.

Ltac project :=
  cbn [faults emit set_faults set_db set_buf set_parsed set_queued
       set_batch_size set_target_date push_request db journal _buf
       batch_size target_date _queued _parsed yielded effect
       durable working opened fst snd] in *.

Ltac unfold_spider :=
  unfold upsert, bind, db_call, log, yield, modify, gets, ret, raise, lift,
    try_except, try_finally;
  project.

(** Case analysis on what the database does with the calls in the goal. *)
Ltac split_db :=
  repeat match goal with
  | |- context [if hd false ?fs then _ else _] =>
      destruct (hd false fs) eqn:?
  | |- context [if opened ?d then _ else _] => destruct (opened d) eqn:?
  | |- context [match working ?d with _ => _ end] =>
      destruct (working d) eqn:?
  end; project.

(** A healthy schedule contradicts a fault at its head or after it. *)
Ltac no_fault :=
  match goal with
  | H : healthy ?fs, E : hd false ?later = true |- _ =>
      rewrite (healthy_hd later) in E by (repeat apply healthy_tl; exact H);
      discriminate E
  end.

Ltac not_ready :=
  match goal with
  | H : ready ?d |- _ => destruct H; congruence
  end.

(* ------------------------------------------------------------------ *)
(** ** Flushing *)

(** What one [_flush] does, by outcome. *)
Lemma flush_outcome (s : state) (o : outcome unit) (s' : state) :
  _flush s = (o, s') ->
  (target_date s' = target_date s /\ batch_size s' = batch_size s
   /\ _queued s' = _queued s /\ _parsed s' = _parsed s
   /\ yielded s' = yielded s)
  /\ (_buf s = [] -> o = Ok tt /\ s' = s)
  /\ (_buf s <> [] -> o = Ok tt ->
      journal s' = journal s ++
        [Db (Executemany (_buf s)) false; Db Commit false;
         Log (LogCommit (Z.of_nat (List.length (_buf s))))]
      /\ _buf s' = []
      /\ faults s' = tl (tl (faults s))
      /\ exists t, working (db s) = Some t
                   /\ db s' = mkDb (Some (upsert_many (_buf s) t))
                                   (Some (upsert_many (_buf s) t)) true)
  /\ (forall e, o = Raise e ->
      _buf s' = _buf s /\ durable (db s') = durable (db s))
  /\ (healthy (faults s) -> ready (db s) -> o = Ok tt).
Proof.
  unfold _flush, bind at 1, gets.
  destruct (_buf s) as [|r buf] eqn:Hbuf.
  - unfold ret. intros H. injection H as <- <-.
    repeat split; intros; congruence.
  - unfold_spider. split_db; intros H; injection H as <- <-; project;
      repeat split; intros; try discriminate; try congruence;
      try no_fault; try not_ready.
    all: try (rewrite <- !app_assoc; reflexivity).
    all: try (eexists; split; [reflexivity|congruence]).
    all: eexists; split; reflexivity.
Qed.

(** C6: [_flush] on an empty buffer does nothing at all; on a buffer with
    records, when it returns it has made one [executemany] over all the
    pending records and one commit, the table holds them and the buffer
    is empty; when a write raises, the buffer keeps its records and
    nothing has been committed.  A healthy, ready store makes it return. *)
Theorem flush_all_or_nothing (s : state) :
  let '(o, s') := _flush s in
  (_buf s = [] -> o = Ok tt /\ s' = s)
  /\ (_buf s <> [] -> o = Ok tt ->
      journal s' = journal s ++
        [Db (Executemany (_buf s)) false; Db Commit false;
         Log (LogCommit (Z.of_nat (List.length (_buf s))))]
      /\ _buf s' = []
      /\ exists t, working (db s) = Some t
                   /\ durable (db s') = Some (upsert_many (_buf s) t))
  /\ (forall e, o = Raise e ->
      _buf s' = _buf s /\ durable (db s') = durable (db s))
  /\ (healthy (faults s) -> ready (db s) -> o = Ok tt).
Proof.
  unfold _flush, bind at 1, gets.
  destruct (_buf s) as [|r buf] eqn:Hbuf.
  - unfold ret. repeat split; intros; try congruence.
  - unfold_spider. split_db;
      repeat split; intros; try discriminate; try congruence;
      try no_fault; try not_ready.
    all: try (rewrite <- !app_assoc; reflexivity).
    all: try (eexists; split; [reflexivity|congruence]).
Qed.

Lemma writes_app (a b : list event) :
  writes (a ++ b) = (writes a + writes b)%nat.
Proof.
  induction a as [|[[| | | |] ?|?] a IH]; simpl; auto.
Qed.

Lemma received_app (a b : list event) :
  received (a ++ b) = received a ++ received b.
Proof.
  induction a as [|[[| | | |] []|?] a IH]; simpl; auto.
  now rewrite IH, app_assoc.
Qed.

(* ------------------------------------------------------------------ *)
(** ** Shutdown *)

(** C1: whatever the reason and whatever the state, [closed] runs one
    [_flush] (none of its store writes is repeated, and on an empty buffer
    it writes nothing), then calls [close] on the connection, and only
    then logs; a flush that raises still reaches the [close], and a
    [close] that raises is swallowed.  With a healthy, ready store the
    buffer ends empty, every pending record is committed and the
    connection is closed. *)
Theorem closed_flushes_then_closes (reason : pystr) (s : state) :
  let '(o_flush, s_flush) := _flush s in
  let '(o, s') := closed reason s in
  let failed := hd false (faults s_flush) in
  o = o_flush
  /\ journal s' = journal s_flush ++ Db Close failed ::
       (if raised o_flush then []
        else [Log (LogClose reason (_queued s) (_parsed s))])
  /\ writes (journal s') =
       (writes (journal s) + match _buf s with [] => 0 | _ :: _ => 1 end)%nat
  /\ _buf s' = _buf s_flush
  /\ durable (db s') = durable (db s_flush)
  /\ (failed = false -> opened (db s') = false)
  /\ (healthy (faults s) -> ready (db s) ->
      o = Ok tt /\ _buf s' = [] /\ opened (db s') = false
      /\ (_buf s = [] -> durable (db s') = durable (db s))
      /\ (_buf s <> [] -> exists t, working (db s) = Some t
            /\ durable (db s') = Some (upsert_many (_buf s) t))).
Proof.
  unfold closed, _flush. unfold_spider.
  destruct (_buf s) as [|r buf] eqn:Hbuf; project; split_db;
    rewrite ?writes_app; simpl;
    repeat split; intros; try discriminate; try congruence;
    try no_fault; try not_ready; try lia.
  all: try (rewrite <- !app_assoc; reflexivity).
  all: try (eexists; split; [reflexivity|congruence]).
Qed.

(* ------------------------------------------------------------------ *)
(** ** What the methods keep *)

Section Preservation.

Variable P : state -> Prop.

Lemma preserves_ret {A} (a : A) : preserves P (ret a).
Proof. intros s H. exact H. Qed.

Lemma preserves_raise {A} (e : exn) : preserves P (@raise A e).
Proof. intros s H. exact H. Qed.

Lemma preserves_lift {A} (o : outcome A) : preserves P (lift o).
Proof. intros s H. exact H. Qed.

Lemma preserves_gets {A} (f : state -> A) : preserves P (gets f).
Proof. intros s H. exact H. Qed.

Lemma preserves_modify (f : state -> state) :
  (forall s, P s -> P (f s)) -> preserves P (modify f).
Proof. intros Hf s H. apply Hf, H. Qed.

Lemma preserves_bind {A B} (m : M A) (k : A -> M B) :
  preserves P m -> (forall a, preserves P (k a)) -> preserves P (bind m k).
Proof.
  intros Hm Hk s H. unfold bind. specialize (Hm s H).
  destruct (m s) as [[a|e] s1]; simpl in *; [now apply Hk|exact Hm].
Qed.

Lemma preserves_try_except {A} (m : M A) (h : exn -> M A) :
  preserves P m -> (forall e, preserves P (h e)) ->
  preserves P (try_except m h).
Proof.
  intros Hm Hh s H. unfold try_except. specialize (Hm s H).
  destruct (m s) as [[a|e] s1]; simpl in *; [exact Hm|now apply Hh].
Qed.

Lemma preserves_try_finally {A} (m : M A) (fin : M unit) :
  preserves P m -> preserves P fin -> preserves P (try_finally m fin).
Proof.
  intros Hm Hf s H. unfold try_finally. specialize (Hm s H).
  destruct (m s) as [o s1]; simpl in *. specialize (Hf s1 Hm).
  destruct (fin s1) as [[[]|e] s2]; exact Hf.
Qed.

Lemma preserves_for_each {A} (l : list A) (body : A -> M unit) :
  (forall x, preserves P (body x)) -> preserves P (for_each l body).
Proof.
  intros Hb. induction l as [|x l IH]; simpl.
  - apply preserves_ret.
  - apply preserves_bind; auto.
Qed.

Lemma preserves_if {A} (b : bool) (m1 m2 : M A) :
  preserves P m1 -> preserves P m2 -> preserves P (if b then m1 else m2).
Proof. destruct b; auto. Qed.

End Preservation.

(** The threshold is an attribute no method writes after [__init__]. *)
Lemma db_call_threshold (c : dbcall) : preserves threshold_set (db_call c).
Proof.
  intros s H. unfold db_call, threshold_set in *.
  destruct (hd false (faults s)); [exact H|].
  destruct (effect c (db s)); exact H.
Qed.

Ltac keeps :=
  repeat first
    [ apply preserves_bind; [|intros ?]
    | apply preserves_for_each; intros ?
    | apply preserves_try_except; [|intros ?]
    | apply preserves_try_finally
    | apply preserves_if
    | apply preserves_ret
    | apply preserves_raise
    | apply preserves_lift
    | apply preserves_gets
    | apply db_call_threshold
    | apply preserves_modify; intros ? ?; assumption
    | match goal with
      | |- preserves _ (match ?x with _ => _ end) => destruct x
      end ].

Lemma flush_threshold : preserves threshold_set _flush.
Proof. unfold _flush, upsert, log. keeps. Qed.

Lemma append_threshold (r : Row) : preserves threshold_set (append r).
Proof. unfold append. keeps. Qed.

Lemma parse_detail_threshold (response : Response) :
  preserves threshold_set (parse_detail response).
Proof. unfold parse_detail, log. keeps. Qed.

Lemma parse_list_threshold (join_accepted : pystr -> pystr -> bool)
    (response : Response) :
  preserves threshold_set (parse_list join_accepted response).
Proof.
  unfold parse_list, parse_list_next, parse_list_row, joined_request, yield.
  keeps.
Qed.

Lemma start_requests_threshold (strptime_Ymd : pystr -> bool) :
  preserves threshold_set (start_requests strptime_Ymd).
Proof. unfold start_requests, yield. keeps. Qed.

Lemma closed_threshold (reason : pystr) :
  preserves threshold_set (closed reason).
Proof. unfold closed, log. keeps. Qed.

Lemma bind_establishes {A B} (P : state -> Prop) (m : M A) (k : A -> M B) :
  (forall s, P (snd (m s))) -> (forall a, preserves P (k a)) ->
  forall s, P (snd (bind m k s)).
Proof.
  intros Hm Hk s. unfold bind. specialize (Hm s).
  destruct (m s) as [[a|e] s1]; simpl in *; [now apply Hk|exact Hm].
Qed.

(** [__init__] leaves a positive threshold, whatever it was given. *)
Lemma init_threshold (int_of_str : pystr -> option Z) (date : option pystr)
    (size : pyval) (s : state) :
  threshold_set (snd (__init__ int_of_str date size s)).
Proof.
  unfold __init__, bind at 1, modify at 1.
  apply bind_establishes.
  - intros s0. unfold try_except, bind, modify, gets, lift, ret, threshold_set.
    destruct (pyval_truthy size); [destruct (py_int int_of_str size)|]; simpl;
      try destruct (_ <=? 0) eqn:E; simpl; try apply Z.leb_gt in E; lia.
  - intros _. unfold _init_db. keeps.
Qed.

Lemma reachable_threshold (int_of_str : pystr -> option Z)
    (strptime_Ymd : pystr -> bool) (join_accepted : pystr -> pystr -> bool)
    (s : state) :
  reachable int_of_str strptime_Ymd join_accepted s -> threshold_set s.
Proof.
  induction 1 as [date size file fs s H|s o s' _ IH H|s r o s' _ IH H
                 |s r o s' _ IH H].
  - replace s with (snd (__init__ int_of_str date size (blank file fs)))
      by now rewrite H.
    apply init_threshold.
  - replace s' with (snd (start_requests strptime_Ymd s)) by now rewrite H.
    now apply start_requests_threshold.
  - replace s' with (snd (parse_list join_accepted r s)) by now rewrite H.
    now apply parse_list_threshold.
  - replace s' with (snd (parse_detail r s)) by now rewrite H.
    now apply parse_detail_threshold.
Qed.

(* ------------------------------------------------------------------ *)
(** ** Appending *)

Lemma append_below (r : Row) (s : state) :
  Z.of_nat (List.length (_buf s)) + 1 < batch_size s ->
  append r s = (Ok tt, set_parsed (_parsed s + 1) (set_buf (_buf s ++ [r]) s)).
Proof.
  intros H. unfold append. unfold_spider.
  rewrite length_app, Nat2Z.inj_add.
  change (Z.of_nat (List.length [r])) with 1.
  destruct (_ >=? _) eqn:E; [|reflexivity].
  apply Z.geb_le in E. lia.
Qed.

Lemma append_reaching (r : Row) (s : state) :
  batch_size s <= Z.of_nat (List.length (_buf s)) + 1 ->
  append r s = _flush (set_parsed (_parsed s + 1) (set_buf (_buf s ++ [r]) s)).
Proof.
  intros H. unfold append. unfold_spider.
  rewrite length_app, Nat2Z.inj_add.
  change (Z.of_nat (List.length [r])) with 1.
  destruct (_ >=? _) eqn:E; [reflexivity|].
  rewrite Z.geb_leb in E. apply Z.leb_gt in E. lia.
Qed.

(** A step of [append] that returns leaves fewer records than the
    threshold: the buffer has grown by the record, or has been written
    out and is empty. *)
Lemma append_step (r : Row) (s s' : state) :
  threshold_set s ->
  append r s = (Ok tt, s') ->
  Z.of_nat (List.length (_buf s')) < batch_size s'
  /\ batch_size s' = batch_size s
  /\ ((_buf s' = _buf s ++ [r]
       /\ Z.of_nat (List.length (_buf s)) + 1 < batch_size s)
      \/ (_buf s' = []
          /\ batch_size s <= Z.of_nat (List.length (_buf s)) + 1)).
Proof.
  unfold threshold_set. intros Hpos Hrun.
  destruct (Z_lt_le_dec (Z.of_nat (List.length (_buf s)) + 1) (batch_size s))
    as [Hlt|Hge].
  - rewrite (append_below r s Hlt) in Hrun. injection Hrun as <-. project.
    rewrite length_app, Nat2Z.inj_add.
    change (Z.of_nat (List.length [r])) with 1.
    split; [lia|]. split; [reflexivity|].
    left. auto.
  - rewrite (append_reaching r s Hge) in Hrun.
    pose proof (flush_outcome _ _ _ Hrun) as Hf.
    project. destruct Hf as (_ & _ & Hfull & _).
    destruct Hfull as (_ & Hempty & _);
      [destruct (_buf s); discriminate|reflexivity|].
    pose proof (flush_threshold
                  (set_parsed (_parsed s + 1) (set_buf (_buf s ++ [r]) s)))
      as Hb.
    assert (Hsame : batch_size s' = batch_size s).
    { revert Hrun. unfold _flush. unfold_spider. project.
      destruct (_buf s ++ [r]); project; split_db; intros Hrun;
        try discriminate Hrun; injection Hrun as <-; reflexivity. }
    rewrite Hempty, Hsame. simpl. split; [exact Hpos|]. split; [reflexivity|].
    right. auto.
Qed.

Lemma for_each_app {A} (l1 l2 : list A) (body : A -> M unit) (s : state) :
  for_each (l1 ++ l2) body s = (for_each l1 body ;; for_each l2 body) s.
Proof.
  revert s. induction l1 as [|x l1 IH]; intros s; simpl.
  - reflexivity.
  - unfold bind in *. destruct (body x s) as [[[]|e] s1]; [apply IH|reflexivity].
Qed.

(** While the threshold is out of reach, appending only grows the
    buffer: nothing is said to the store. *)
Lemma for_each_append_below (rows : list Row) :
  forall s,
    Z.of_nat (List.length (_buf s)) + Z.of_nat (List.length rows)
      < batch_size s ->
    exists s',
      for_each rows append s = (Ok tt, s')
      /\ _buf s' = _buf s ++ rows
      /\ journal s' = journal s /\ db s' = db s /\ faults s' = faults s
      /\ batch_size s' = batch_size s.
Proof.
  induction rows as [|r rows IH]; intros s H; simpl in *.
  - exists s. rewrite app_nil_r. repeat split; reflexivity.
  - unfold bind. rewrite append_below by lia.
    destruct (IH (set_parsed (_parsed s + 1) (set_buf (_buf s ++ [r]) s)))
      as (s' & Hrun & Hbuf & Hj & Hdb & Hf & Hb).
    + project. rewrite length_app, Nat2Z.inj_add.
      change (Z.of_nat (List.length [r])) with 1. lia.
    + exists s'. project. rewrite Hrun, Hbuf, <- app_assoc.
      repeat split; assumption.
Qed.

(** C5: from an empty buffer and with a healthy, ready store, appending
    as many records as the threshold makes one write of exactly those
    records, commits them and leaves the buffer empty; appending one
    record fewer says nothing to the store and leaves them all pending. *)
Theorem buffer_threshold (s : state) (rows : list Row) :
  _buf s = [] -> threshold_set s -> healthy (faults s) -> ready (db s) ->
  let '(o, s') := for_each rows append s in
  (Z.of_nat (List.length rows) = batch_size s ->
   o = Ok tt
   /\ journal s' = journal s ++
        [Db (Executemany rows) false; Db Commit false;
         Log (LogCommit (batch_size s))]
   /\ received (journal s') = received (journal s) ++ rows
   /\ _buf s' = []
   /\ exists t, working (db s) = Some t
                /\ durable (db s') = Some (upsert_many rows t))
  /\ (Z.of_nat (List.length rows) = batch_size s - 1 ->
      o = Ok tt
      /\ journal s' = journal s /\ db s' = db s
      /\ received (journal s') = received (journal s)
      /\ _buf s' = rows).
Proof.
  unfold threshold_set. intros Hempty Hpos Hhealthy Hready.
  destruct (for_each rows append s) as [o s'] eqn:Hrun. split; intros Hlen.
  - destruct rows as [|r0 rows0] using rev_ind; [simpl in Hlen; lia|].
    clear IHrows0. rename rows0 into rows, r0 into r.
    rewrite length_app, Nat2Z.inj_add in Hlen.
    change (Z.of_nat (List.length [r])) with 1 in Hlen.
    rewrite for_each_app in Hrun. unfold bind at 1 in Hrun.
    destruct (for_each_append_below rows s)
      as (s1 & Hrun1 & Hbuf1 & Hj1 & Hdb1 & Hf1 & Hb1);
      [rewrite Hempty; simpl; lia|].
    rewrite Hrun1 in Hrun. rewrite Hempty in Hbuf1. simpl in Hbuf1, Hrun.
    unfold bind, ret in Hrun.
    rewrite append_reaching in Hrun by (rewrite Hbuf1, Hb1; lia).
    destruct (_flush _) as [o2 s2] eqn:Hflush.
    pose proof (flush_outcome _ _ _ Hflush) as Hf. project.
    destruct Hf as (_ & _ & Hfull & _ & Hok).
    assert (o2 = Ok tt) as ->
      by (apply Hok; [now rewrite Hf1|now rewrite Hdb1]).
    injection Hrun as <- <-.
    destruct Hfull as (Hj & Hb & _ & t & Hw & Hd);
      [destruct (_buf s1); discriminate|reflexivity|].
    apply (f_equal durable) in Hd. simpl in Hd.
    rewrite Hbuf1, Hj1, Hdb1 in *.
    assert (Hn : Z.of_nat (List.length (rows ++ [r])) = batch_size s)
      by (rewrite length_app, Nat2Z.inj_add; exact Hlen).
    rewrite Hn in Hj. split; [reflexivity|]. split; [exact Hj|].
    split; [|split; [exact Hb|now exists t]].
    rewrite Hj, received_app. simpl. now rewrite app_nil_r.
  - destruct (for_each_append_below rows s)
      as (s1 & Hrun1 & Hbuf1 & Hj1 & Hdb1 & Hf1 & Hb1);
      [rewrite Hempty; simpl; lia|].
    rewrite Hrun1 in Hrun. injection Hrun as <- <-.
    rewrite Hempty in Hbuf1. rewrite Hj1. auto.
Qed.

(** [parse_detail] is one [append] of the tuple it builds, unless the
    response carries no code or name. *)
Lemma parse_detail_step (response : Response) (s : state) :
  (exists e, parse_detail response s = (Raise e, s))
  \/ exists code name o s1,
       meta_get (resp_meta response) (str_of "code") = Ok code
       /\ meta_get (resp_meta response) (str_of "name") = Ok name
       /\ append (build_row (target_date s) code name response) s = (o, s1)
       /\ fst (parse_detail response s) = o
       /\ _buf (snd (parse_detail response s)) = _buf s1
       /\ batch_size (snd (parse_detail response s)) = batch_size s1
       /\ db (snd (parse_detail response s)) = db s1.
Proof.
  unfold parse_detail. unfold bind at 1 2 3, lift, gets.
  destruct (meta_get _ (str_of "code")) as [code|e]; [|left; eauto].
  destruct (meta_get _ (str_of "name")) as [name|e]; [|left; eauto].
  right. exists code, name. unfold bind.
  destruct (append _ s) as [[[]|e] s1]; [|now exists (Raise e), s1].
  exists (Ok tt), s1. unfold log, modify, ret.
  destruct (_ =? 0); repeat split; reflexivity.
Qed.

(** C10, as stated, fails on the steps whose write raises: with a
    threshold of 2 and a store that fails twice, the second detail page
    ends with two records pending and the third with three, each step
    starting in a state the spider can be in. *)
Lemma pending_reaches_threshold :
  let s1 := snd (parse_detail (sample_detail "1301" "Acme") sample_flaky) in
  let s2 := snd (parse_detail (sample_detail "1332" "Bolt") s1) in
  let s3 := snd (parse_detail (sample_detail "1333" "Cord") s2) in
  reachable int_refusing strptime_accepting join_accepting s1
  /\ reachable int_refusing strptime_accepting join_accepting s2
  /\ fst (parse_detail (sample_detail "1332" "Bolt") s1)
     = Raise DatabaseError
  /\ fst (parse_detail (sample_detail "1333" "Cord") s2)
     = Raise DatabaseError
  /\ batch_size s2 = 2 /\ List.length (_buf s2) = 2%nat
  /\ batch_size s3 = 2 /\ List.length (_buf s3) = 3%nat
  /\ ~ Z.of_nat (List.length (_buf s2)) < batch_size s2
  /\ ~ Z.of_nat (List.length (_buf s3)) < batch_size s3.
Proof.
  intros s1 s2 s3.
  assert (H0 : reachable int_refusing strptime_accepting join_accepting
                 sample_flaky).
  { apply (reach_init _ _ _ (Some (str_of "20240115")) (PyInt 2) None
             [false; false; false; false; false; false; true; true]).
    vm_compute. reflexivity. }
  assert (H1 : reachable int_refusing strptime_accepting join_accepting s1).
  { apply (reach_detail _ _ _ sample_flaky (sample_detail "1301" "Acme")
             (fst (parse_detail (sample_detail "1301" "Acme") sample_flaky))
             s1 H0).
    apply surjective_pairing. }
  assert (H2 : reachable int_refusing strptime_accepting join_accepting s2).
  { apply (reach_detail _ _ _ s1 (sample_detail "1332" "Bolt")
             (fst (parse_detail (sample_detail "1332" "Bolt") s1)) s2 H1).
    apply surjective_pairing. }
  split; [exact H1|]. split; [exact H2|].
  vm_compute. repeat split; try reflexivity; intros H; discriminate H.
Qed.

(** [__init__] settles the threshold without raising, then turns to the
    database. *)
Lemma init_unfold (int_of_str : pystr -> option Z) (date : option pystr)
    (size : pyval) (s : state) :
  exists n,
    __init__ int_of_str date size s =
    (db_call Connect ;;
     db_call (Execute PragmaJournalWAL) ;;
     db_call (Execute PragmaSynchronousNormal) ;;
     db_call Commit ;;
     _init_db ;;
     modify (set_buf []) ;;
     modify (set_queued 0) ;;
     modify (set_parsed 0))
      (set_batch_size n (set_target_date date s)).
Proof.
  unfold __init__. unfold bind at 1 2, modify at 1, try_except.
  unfold bind at 1 2 3, modify at 1 2 3, gets at 1, lift at 1, ret at 1 2.
  destruct (pyval_truthy size); [destruct (py_int int_of_str size) as [z|e]|];
    cbn [batch_size set_batch_size set_target_date];
    try destruct (_ <=? 0); eexists; reflexivity.
Qed.

(** The connection stays open on an existing table from [__init__] to
    the shutdown. *)
Lemma flush_ready (s : state) : ready (db s) -> ready (db (snd (_flush s))).
Proof.
  intros [Ho Hw]. unfold _flush. unfold_spider.
  destruct (_buf s) as [|r buf]; project; [now split|].
  split_db; split; project; congruence.
Qed.

Lemma append_ready (r : Row) (s : state) :
  ready (db s) -> ready (db (snd (append r s))).
Proof.
  intros H.
  destruct (Z_lt_le_dec (Z.of_nat (List.length (_buf s)) + 1) (batch_size s))
    as [Hlt|Hge].
  - rewrite (append_below r s Hlt). exact H.
  - rewrite (append_reaching r s Hge). now apply flush_ready.
Qed.

Lemma parse_detail_ready (response : Response) (s : state) :
  ready (db s) -> ready (db (snd (parse_detail response s))).
Proof.
  intros H.
  destruct (parse_detail_step response s)
    as [[e He]|(code & name & o & s1 & _ & _ & Happ & _ & _ & _ & Hdb)].
  - now rewrite He.
  - rewrite Hdb. replace s1 with (snd (append (build_row (target_date s)
                                                 code name response) s))
      by now rewrite Happ.
    now apply append_ready.
Qed.

Lemma init_ready (int_of_str : pystr -> option Z) (date : option pystr)
    (size : pyval) (file : option (list Row)) (fs : list bool) (s : state) :
  __init__ int_of_str date size (blank file fs) = (Ok tt, s) -> ready (db s).
Proof.
  destruct (init_unfold int_of_str date size (blank file fs)) as [n ->].
  unfold _init_db, blank. unfold_spider. split_db;
    intros H; try discriminate H; injection H as <-; project;
    split; [reflexivity|destruct file; discriminate].
Qed.

Lemma reachable_ready (int_of_str : pystr -> option Z)
    (strptime_Ymd : pystr -> bool) (join_accepted : pystr -> pystr -> bool)
    (s : state) :
  reachable int_of_str strptime_Ymd join_accepted s -> ready (db s).
Proof.
  induction 1 as [date size file fs s H|s o s' _ IH H|s r o s' _ IH H
                 |s r o s' _ IH H].
  - now apply init_ready in H.
  - replace s' with (snd (start_requests strptime_Ymd s)) by now rewrite H.
    revert IH. generalize s.
    change (preserves (fun s => ready (db s)) (start_requests strptime_Ymd)).
    unfold start_requests, yield. keeps.
  - replace s' with (snd (parse_list join_accepted r s)) by now rewrite H.
    revert IH. generalize s.
    change (preserves (fun s => ready (db s)) (parse_list join_accepted r)).
    unfold parse_list, parse_list_next, parse_list_row, joined_request, yield.
    keeps.
  - replace s' with (snd (parse_detail r s)) by now rewrite H.
    now apply parse_detail_ready.
Qed.

(** Against a store that raises no more, an [append] returns. *)
Lemma append_returns (r : Row) (s : state) :
  healthy (faults s) -> ready (db s) -> fst (append r s) = Ok tt.
Proof.
  intros Hh Hr.
  destruct (Z_lt_le_dec (Z.of_nat (List.length (_buf s)) + 1) (batch_size s))
    as [Hlt|Hge].
  - now rewrite (append_below r s Hlt).
  - rewrite (append_reaching r s Hge).
    destruct (_flush _) as [o s'] eqn:Hrun.
    destruct (flush_outcome _ _ _ Hrun) as (_ & _ & _ & _ & Hok).
    simpl. now apply Hok.
Qed.

(** C10 (amended): in every state a constructed spider can be in, a
    [parse_detail] step that returns leaves fewer pending records than
    [batch_size]: either the buffer has grown by the one record built and
    is still below the threshold, or it had reached the threshold and
    has been emptied.  And the step does return when the response carries
    its code and name and the store raises no more. *)
Theorem pending_below_threshold (int_of_str : pystr -> option Z)
    (strptime_Ymd : pystr -> bool) (join_accepted : pystr -> pystr -> bool)
    (s : state) (response : Response) :
  reachable int_of_str strptime_Ymd join_accepted s ->
  (forall s', parse_detail response s = (Ok tt, s') ->
   0 < batch_size s'
   /\ Z.of_nat (List.length (_buf s')) < batch_size s'
   /\ Z.of_nat (List.length (_buf s')) <= batch_size s' - 1
   /\ batch_size s' = batch_size s
   /\ ((exists record, _buf s' = _buf s ++ [record]
          /\ Z.of_nat (List.length (_buf s)) + 1 < batch_size s)
       \/ (_buf s' = []
           /\ batch_size s <= Z.of_nat (List.length (_buf s)) + 1)))
  /\ (healthy (faults s) ->
      forall code name,
        meta_get (resp_meta response) (str_of "code") = Ok code ->
        meta_get (resp_meta response) (str_of "name") = Ok name ->
        fst (parse_detail response s) = Ok tt).
Proof.
  intros Hreach. pose proof (reachable_ready _ _ _ _ Hreach) as Hready.
  apply reachable_threshold in Hreach. split.
  - intros s' Hrun.
    destruct (parse_detail_step response s)
      as [[e He]|(code & name & o & s1 & _ & _ & Happ & Ho & Hbuf & Hb & _)].
    + rewrite He in Hrun. discriminate Hrun.
    + rewrite Hrun in Ho, Hbuf, Hb. simpl in Ho, Hbuf, Hb. subst o.
      destruct (append_step _ _ _ Hreach Happ) as (Hlt & Hsame & Hcase).
      rewrite Hbuf, Hb. unfold threshold_set in Hreach.
      repeat split; try lia.
      destruct Hcase as [[H1 H2]|[H1 H2]]; [left; eauto|right; auto].
  - intros Hh code name Hc Hn.
    destruct (parse_detail_step response s)
      as [[e He]|(code' & name' & o & s1 & _ & _ & Happ & Ho & _)].
    + exfalso. revert He. unfold parse_detail, bind, lift.
      rewrite Hc, Hn. unfold gets.
      pose proof (append_returns (build_row (target_date s) code name
                                    response) s Hh Hready) as Hret.
      destruct (append _ s) as [[[]|e0] s0]; [|discriminate Hret].
      unfold log, modify, ret. destruct (_ =? 0); discriminate.
    + rewrite Ho. replace o with (fst (append (build_row (target_date s)
                                                 code' name' response) s))
        by now rewrite Happ.
      now apply append_returns.
Qed.

(* ------------------------------------------------------------------ *)
(** ** The unique key *)

Lemma conflict_refl (r : Row) (d : pystr) :
  col_target_date r = Some d -> conflict r r = true.
Proof.
  intros H. unfold conflict, same_key. rewrite H.
  now rewrite !str_eqb_refl.
Qed.

Lemma filter_none {A} (f : A -> bool) (l : list A) :
  filter f (filter (fun x => negb (f x)) l) = [].
Proof.
  induction l as [|x l IH]; simpl; [reflexivity|].
  destruct (f x) eqn:E; simpl; [exact IH|]. now rewrite E.
Qed.

Lemma filter_twice {A} (f : A -> bool) (l : list A) :
  filter f (filter f l) = filter f l.
Proof.
  induction l as [|x l IH]; simpl; [reflexivity|].
  destruct (f x) eqn:E; simpl; [|exact IH]. now rewrite E, IH.
Qed.

(** After an [INSERT OR REPLACE] of [r], the key of [r] selects [r] and
    nothing else. *)
Lemma insert_or_replace_key (t : list Row) (r : Row) (d : pystr) :
  col_target_date r = Some d ->
  filter (same_key (col_code r) (Some d)) (insert_or_replace t r) = [r].
Proof.
  intros H. pose proof (conflict_refl r d H) as Hself.
  unfold insert_or_replace, conflict in *. rewrite H in *.
  rewrite filter_app, filter_none. cbn [filter app]. now rewrite Hself.
Qed.

Lemma insert_or_replace_twice (t : list Row) (r : Row) (d : pystr) :
  col_target_date r = Some d ->
  insert_or_replace (insert_or_replace t r) r = insert_or_replace t r.
Proof.
  intros H. unfold insert_or_replace.
  rewrite filter_app, filter_twice. simpl.
  now rewrite (conflict_refl r d H), app_nil_r.
Qed.

(** C7: writing a record twice, with a healthy and ready store, commits a
    table in which the key (code, target_date) of the record selects
    exactly one row, the record itself with all its columns; the second
    write changes nothing. *)
Theorem upsert_twice_one_row (s : state) (r : Row) (d : pystr) :
  col_target_date r = Some d -> healthy (faults s) -> ready (db s) ->
  let '(o1, s1) := upsert [r] s in
  let '(o2, s2) := upsert [r] s1 in
  o1 = Ok tt /\ o2 = Ok tt
  /\ exists t,
       durable (db s2) = Some t
       /\ filter (same_key (col_code r) (Some d)) t = [r]
       /\ List.length (filter (same_key (col_code r) (Some d)) t) = 1%nat
       /\ durable (db s1) = Some t.
Proof.
  intros Hd Hh [Ho Hw]. unfold_spider. split_db;
    try no_fault; try congruence.
  repeat split. eexists. split; [reflexivity|].
  match goal with H : Some _ = Some _ |- _ => injection H as <- end.
  unfold upsert_many. simpl.
  rewrite (insert_or_replace_twice _ r d Hd), (insert_or_replace_key _ r d Hd).
  auto.
Qed.

(* ------------------------------------------------------------------ *)
(** ** Extraction *)

(** C8: [_get] is a function into strings, so nothing it does reaches its
    caller as an exception; it answers the sentinel when the query
    raises, when it matches nothing and when the first match is the empty
    string, and the stripped first match otherwise. *)
Theorem get_sentinel_or_stripped (resp : Response) (xp : pystr) :
  (forall e, xpath (resp_sel resp) xp = Raise e -> _get resp xp = NA)
  /\ (forall nodes, xpath (resp_sel resp) xp = Ok nodes ->
      get nodes = None -> _get resp xp = NA)
  /\ (forall nodes, xpath (resp_sel resp) xp = Ok nodes ->
      get nodes = Some [] -> _get resp xp = NA)
  /\ (forall nodes v, xpath (resp_sel resp) xp = Ok nodes ->
      get nodes = Some v -> v <> [] -> _get resp xp = strip v)
  /\ (_get resp xp = NA
      \/ exists nodes v, xpath (resp_sel resp) xp = Ok nodes
                         /\ get nodes = Some v /\ _get resp xp = strip v).
Proof.
  unfold _get, xpath_get.
  destruct (xpath (resp_sel resp) xp) as [nodes|e].
  - destruct (get nodes) as [[|c v]|] eqn:Hget; simpl.
    + repeat split; intros; auto; congruence.
    + split; [intros; congruence|].
      split; [intros n Hn; injection Hn as <-; congruence|].
      split; [intros n Hn; injection Hn as <-; congruence|].
      split; [intros n w Hn Hw _; injection Hn as <-; congruence|].
      right. now exists nodes, (c :: v).
    + repeat split; intros; auto; congruence.
  - repeat split; intros; auto; congruence.
Qed.

(* ------------------------------------------------------------------ *)
(** ** The listing *)

Lemma parse_list_row_skip (join_accepted : pystr -> pystr -> bool)
    (response : Response) (row : Selector) (s : state) :
  row_missing_field row = true ->
  parse_list_row join_accepted response row s = (Ok tt, s).
Proof.
  unfold row_missing_field, parse_list_row, bind, lift, truthy.
  destruct (xpath_get row xp_td1_text) as [code|]; [|discriminate].
  destruct (xpath_get row xp_td2_text) as [name|]; [|discriminate].
  destruct (xpath_get row xp_td2_href) as [href|]; [|discriminate].
  destruct code as [code|], name as [name|], href as [href|]; simpl;
    try reflexivity.
  intros H. apply negb_true_iff in H. now rewrite H.
Qed.

Lemma parse_list_row_url (join_accepted : pystr -> pystr -> bool)
    (r1 r2 : Response) (row : Selector) (s : state) :
  resp_url r1 = resp_url r2 ->
  parse_list_row join_accepted r1 row s
  = parse_list_row join_accepted r2 row s.
Proof. intros H. unfold parse_list_row. now rewrite H. Qed.

Lemma for_each_ext {A} (l : list A) (f g : A -> M unit) :
  (forall x s, f x s = g x s) -> forall s, for_each l f s = for_each l g s.
Proof.
  intros H. induction l as [|x l IH]; intros s; simpl; [reflexivity|].
  unfold bind. rewrite H. destruct (g x s) as [[[]|e] s1]; auto.
Qed.

Lemma for_each_skip {A} (pre post : list A) (x : A) (body : A -> M unit) :
  (forall s, body x s = (Ok tt, s)) ->
  forall s, for_each (pre ++ x :: post) body s = for_each (pre ++ post) body s.
Proof.
  intros H s. rewrite !for_each_app. unfold bind.
  destruct (for_each pre body s) as [[[]|e] s1]; [|reflexivity].
  simpl. unfold bind. now rewrite H.
Qed.

(** C9: a row of which the code, the name or the link is missing makes
    no request, counts for nothing and raises nothing; the rows after it
    and the link to the next page are handled as if the row were not on
    the page. *)
Theorem listing_row_skipped (join_accepted : pystr -> pystr -> bool)
    (response response' : Response)
    (pre post : list Selector) (bad : Selector) (s : state) :
  row_missing_field bad = true ->
  xpath (resp_sel response) xp_rows = Ok (pre ++ bad :: post) ->
  xpath (resp_sel response') xp_rows = Ok (pre ++ post) ->
  xpath (resp_sel response') xp_next = xpath (resp_sel response) xp_next ->
  resp_url response' = resp_url response ->
  (forall s0, parse_list_row join_accepted response bad s0 = (Ok tt, s0))
  /\ parse_list join_accepted response s
     = parse_list join_accepted response' s.
Proof.
  intros Hbad Hrows Hrows' Hnext Hurl. split.
  - intros s0. now apply parse_list_row_skip.
  - unfold parse_list. rewrite Hrows, Hrows'.
    unfold bind at 1 3, lift.
    assert (Hloop :
      for_each (pre ++ bad :: post) (parse_list_row join_accepted response) s
      = for_each (pre ++ post) (parse_list_row join_accepted response') s).
    { rewrite (for_each_skip pre post bad)
        by (intros s0; now apply parse_list_row_skip).
      apply for_each_ext. intros x s0. now apply parse_list_row_url. }
    unfold bind. rewrite Hloop.
    unfold parse_list_next, xpath_get. now rewrite Hnext, Hurl.
Qed.

(* ------------------------------------------------------------------ *)
(** ** Start-up *)

(** C2, as stated, fails: a run without a target date does raise, but
    [__init__] has by then connected to the store and created the table
    in a database that had none. *)
Lemma launch_without_date_touches_store :
  let start := blank None [] in
  let run := launch int_refusing strptime_accepting None (PyInt 50) start in
  fst run = Raise ValueError
  /\ In (Db Connect false) (journal (snd run))
  /\ In (Db (Execute CreateTable) false) (journal (snd run))
  /\ durable (db start) = None
  /\ durable (db (snd run)) = Some []
  /\ ~ no_activity start (snd run).
Proof.
  vm_compute. repeat split; auto 10.
  intros (H & _). discriminate H.
Qed.

Lemma start_requests_rejects (strptime_Ymd : pystr -> bool) (s : state) :
  date_rejected strptime_Ymd (target_date s) = true ->
  start_requests strptime_Ymd s = (Raise ValueError, s).
Proof.
  unfold date_rejected, start_requests, bind, gets, raise, ret.
  destruct (target_date s) as [d|]; [|reflexivity].
  destruct (str_truthy d); [|reflexivity].
  simpl. intros H. apply negb_true_iff in H. now rewrite H.
Qed.

(** C2 (amended): a run whose target date is missing, empty or refused by
    [strptime] raises to its caller before any request is handed to the
    engine, and no row is written: the rows of the table are those it had.
    The store is not untouched, though: [__init__] runs first, and with a
    healthy database it has connected, set the pragmas and created the
    table before [start_requests] looks at the date. *)
Theorem launch_rejects_date (int_of_str : pystr -> option Z)
    (strptime_Ymd : pystr -> bool) (date : option pystr) (size : pyval)
    (file : option (list Row)) (fs : list bool) :
  date_rejected strptime_Ymd date = true ->
  let '(o, s) := launch int_of_str strptime_Ymd date size (blank file fs) in
  raised o = true
  /\ yielded s = []
  /\ writes (journal s) = 0%nat
  /\ received (journal s) = []
  /\ rows_of (durable (db s)) = rows_of file
  /\ (healthy fs ->
      o = Raise ValueError
      /\ journal s =
           [Db Connect false; Db (Execute PragmaJournalWAL) false;
            Db (Execute PragmaSynchronousNormal) false; Db Commit false;
            Db (Execute CreateTable) false; Db Commit false]
      /\ durable (db s) = create_if_absent file
      /\ opened (db s) = true).
Proof.
  intros Hdate. unfold launch. unfold bind at 1.
  destruct (init_unfold int_of_str date size (blank file fs)) as [n ->].
  unfold _init_db, blank. unfold_spider. split_db;
    try (rewrite start_requests_rejects by exact Hdate); project;
    repeat split; intros; try congruence; try no_fault; try reflexivity;
    try (destruct file; reflexivity).
Qed.

(* ------------------------------------------------------------------ *)
(** ** The statements at the sample runs *)

Lemma closed_flushes_then_closes_witness :
  _buf (snd (closed (str_of "finished") sample_pending)) = []
  /\ opened (db (snd (closed (str_of "finished") sample_pending))) = false.
Proof.
  pose proof (closed_flushes_then_closes (str_of "finished") sample_pending)
    as H.
  destruct (_flush sample_pending) as [o1 s1] eqn:E1.
  destruct (closed (str_of "finished") sample_pending) as [o s'] eqn:E.
  destruct H as (_ & _ & _ & _ & _ & _ & H).
  destruct H as (_ & Hb & Ho & _).
  - vm_compute. constructor.
  - split; [reflexivity|discriminate].
  - simpl. auto.
Defined.

Lemma launch_rejects_date_witness :
  date_rejected strptime_accepting None = true
  /\ raised (fst (launch int_refusing strptime_accepting None
                    (PyStr (str_of "abc")) (blank None []))) = true
  /\ yielded (snd (launch int_refusing strptime_accepting None
                     (PyStr (str_of "abc")) (blank None []))) = [].
Proof.
  split; [reflexivity|].
  pose proof (launch_rejects_date int_refusing strptime_accepting None
                (PyStr (str_of "abc")) None [] eq_refl) as H.
  destruct (launch _ _ _ _ _) as [o s]. simpl.
  destruct H as (H1 & H2 & _). auto.
Defined.

Lemma buffer_threshold_witness :
  let rows := [sample_row "1301"; sample_row "1332"] in
  _buf sample_spider = []
  /\ Z.of_nat (List.length rows) = batch_size sample_spider
  /\ _buf (snd (for_each rows append sample_spider)) = []
  /\ received (journal (snd (for_each rows append sample_spider))) = rows.
Proof.
  intros rows. split; [reflexivity|]. split; [reflexivity|].
  assert (Hh : healthy (faults sample_spider)) by (vm_compute; constructor).
  assert (Hr : ready (db sample_spider))
    by (split; [reflexivity|discriminate]).
  pose proof (buffer_threshold sample_spider rows eq_refl eq_refl Hh Hr) as H.
  destruct (for_each rows append sample_spider) as [o s']. simpl.
  destruct H as [H _]. destruct (H eq_refl) as (_ & _ & Hrec & Hbuf & _).
  split; [exact Hbuf|exact Hrec].
Defined.

Lemma flush_all_or_nothing_witness :
  _buf (snd (_flush sample_failing)) = _buf sample_failing
  /\ _buf (snd (_flush sample_pending)) = [].
Proof.
  split.
  - pose proof (flush_all_or_nothing sample_failing) as H.
    destruct (_flush sample_failing) as [o s'] eqn:E. simpl.
    destruct H as (_ & _ & H & _).
    assert (Ho : o = Raise DatabaseError)
      by (apply (f_equal fst) in E; vm_compute in E; congruence).
    exact (proj1 (H DatabaseError Ho)).
  - pose proof (flush_all_or_nothing sample_pending) as H.
    destruct (_flush sample_pending) as [o s'] eqn:E. simpl.
    destruct H as (_ & Hfull & _ & Hok).
    assert (Ho : o = Ok tt).
    { apply Hok; [vm_compute; constructor|split; [reflexivity|discriminate]]. }
    destruct (Hfull ltac:(discriminate) Ho) as (_ & Hb & _). exact Hb.
Defined.

Lemma upsert_twice_one_row_witness :
  col_target_date (sample_row "1301") = Some (str_of "20240115")
  /\ exists t,
       durable (db (snd (upsert [sample_row "1301"]
                           (snd (upsert [sample_row "1301"] sample_spider)))))
       = Some t
       /\ filter (same_key (str_of "1301") (Some (str_of "20240115"))) t
          = [sample_row "1301"].
Proof.
  split; [reflexivity|].
  assert (Hh : healthy (faults sample_spider)) by (vm_compute; constructor).
  assert (Hr : ready (db sample_spider))
    by (split; [reflexivity|discriminate]).
  pose proof (upsert_twice_one_row sample_spider (sample_row "1301")
                (str_of "20240115") eq_refl Hh Hr) as H.
  destruct (upsert [sample_row "1301"] sample_spider) as [o1 s1]. simpl.
  destruct (upsert [sample_row "1301"] s1) as [o2 s2]. simpl.
  destruct H as (_ & _ & t & Hd & Hf & _). now exists t.
Defined.

Lemma get_sentinel_or_stripped_witness :
  _get (sample_detail "1301" "Acme") xp_sector = str_of "Foods"
  /\ _get (sample_detail "1301" "Acme") xp_pe = NA
  /\ _get broken_page xp_pe = NA.
Proof.
  split; [|split].
  - apply (proj1 (proj2 (proj2 (proj2
             (get_sentinel_or_stripped (sample_detail "1301" "Acme")
                xp_sector))))
           [text_node (str_of " Foods ")] (str_of " Foods "));
      [reflexivity|reflexivity|discriminate].
  - apply (proj1 (proj2
             (get_sentinel_or_stripped (sample_detail "1301" "Acme") xp_pe))
           []); reflexivity.
  - apply (proj1 (get_sentinel_or_stripped broken_page xp_pe) ValueError).
    reflexivity.
Defined.

Lemma listing_row_skipped_witness :
  row_missing_field bad_row = true
  /\ parse_list join_accepting
       (listing_page [good_row_1; bad_row; good_row_2]
          (Some (str_of "?page=2"))) sample_spider
     = parse_list join_accepting
         (listing_page [good_row_1; good_row_2]
            (Some (str_of "?page=2"))) sample_spider.
Proof.
  split; [reflexivity|].
  apply (listing_row_skipped join_accepting
           (listing_page [good_row_1; bad_row; good_row_2]
              (Some (str_of "?page=2")))
           (listing_page [good_row_1; good_row_2] (Some (str_of "?page=2")))
           [good_row_1] [good_row_2] bad_row sample_spider);
    reflexivity.
Defined.

Lemma pending_below_threshold_witness :
  reachable int_refusing strptime_accepting join_accepting sample_spider
  /\ Z.of_nat (List.length
                 (_buf (snd (parse_detail (sample_detail "1301" "Acme")
                               sample_spider))))
     < batch_size (snd (parse_detail (sample_detail "1301" "Acme")
                          sample_spider)).
Proof.
  assert (Hreach : reachable int_refusing strptime_accepting join_accepting
                     sample_spider).
  { apply (reach_init _ _ _ (Some (str_of "20240115")) (PyInt 2) None []).
    vm_compute. reflexivity. }
  split; [exact Hreach|].
  apply (proj1 (pending_below_threshold int_refusing strptime_accepting
                  join_accepting sample_spider (sample_detail "1301" "Acme")
                  Hreach)
           (snd (parse_detail (sample_detail "1301" "Acme") sample_spider))).
  vm_compute. reflexivity.
Defined.

(* ------------------------------------------------------------------ *)
(** ** Runs *)

Example strip_ex : strip (str_of "  8.0%  ") = str_of "8.0%".
Proof. reflexivity. Qed.

Example with_pct_ex1 : _with_pct (Some (str_of " 3.5 ")) = str_of "3.5%".
Proof. reflexivity. Qed.

Example with_pct_ex2 : _with_pct (Some (str_of "12%")) = str_of "12%".
Proof. reflexivity. Qed.

Example with_pct_ex3 : _with_pct None = NA /\ _with_pct (Some NA) = NA.
Proof. split; reflexivity. Qed.

Example build_row_ex :
  build_row (Some (str_of "20240115")) (str_of "1301") (str_of "Acme")
    (sample_detail "1301" "Acme")
  = mkRow (Some (str_of "20240115")) (str_of "1301") (str_of "Foods")
      (str_of "Acme") NA NA NA NA (str_of "8.0%") NA.
Proof. vm_compute. reflexivity. Qed.

(** The listing of three rows of which the second has no link, followed
    by the two detail pages and the shutdown: two requests for details and
    one for the next page, two rows in the table. *)
Example crawl_ex :
  let s1 := snd (start_requests strptime_accepting sample_spider) in
  let s2 := snd (parse_list join_accepting
                   (listing_page [good_row_1; bad_row; good_row_2]
                      (Some (str_of "?page=2"))) s1) in
  let s3 := snd (parse_detail (sample_detail "1301" "Acme") s2) in
  let s4 := snd (parse_detail (sample_detail "1332" "Bolt") s3) in
  let s5 := snd (closed (str_of "finished") s4) in
  map req_callback (yielded s2) = [ParseList; ParseDetail; ParseDetail; ParseList]
  /\ _queued s2 = 2
  /\ _buf s3 = [build_row (Some (str_of "20240115")) (str_of "1301")
                  (str_of "Acme") (sample_detail "1301" "Acme")]
  /\ _buf s4 = []
  /\ map col_code (rows_of (durable (db s5))) = [str_of "1301"; str_of "1332"]
  /\ opened (db s5) = false.
Proof. vm_compute. repeat split; reflexivity. Qed.

(** A row whose link is [javascript:void(0)]: the request cannot be made,
    [parse_list] raises, nothing is yielded and the row has been counted. *)
Example refused_link_ex :
  let run := parse_list join_refusing_javascript
               (listing_page [script_row; good_row_1] None) sample_spider in
  fst run = Raise ValueError
  /\ yielded (snd run) = yielded sample_spider
  /\ _queued (snd run) = _queued sample_spider + 1.
Proof. vm_compute. repeat split; reflexivity. Qed.

(** A write that raises leaves as many records pending as the threshold:
    the bound of the pending records is one of the steps that return. *)
Example failed_write_ex :
  let run := parse_detail (sample_detail "1332" "Bolt") sample_failing in
  fst run = Raise DatabaseError
  /\ Z.of_nat (List.length (_buf (snd run))) = batch_size (snd run).
Proof. vm_compute. split; reflexivity. Qed.

(** Without a target date the key holds a NULL and never collides: the
    same tuple written twice is stored twice. *)
Example null_date_ex :
  let r := mkRow None (str_of "1301") NA (str_of "Acme") NA NA NA NA NA NA in
  upsert_many [r] (upsert_many [r] []) = [r; r].
Proof. reflexivity. Qed.

(* ================================================================== *)
(** * Further properties *)

(* ------------------------------------------------------------------ *)
(** ** Construction *)

(** The threshold [__init__] settles on, before it turns to the database. *)
Lemma init_unfold_size (int_of_str : pystr -> option Z) (date : option pystr)
    (size : pyval) (s : state) :
  exists n,
    __init__ int_of_str date size s =
    (db_call Connect ;;
     db_call (Execute PragmaJournalWAL) ;;
     db_call (Execute PragmaSynchronousNormal) ;;
     db_call Commit ;;
     _init_db ;;
     modify (set_buf []) ;;
     modify (set_queued 0) ;;
     modify (set_parsed 0))
      (set_batch_size n (set_target_date date s))
    /\ 0 < n
    /\ (pyval_truthy size = false -> n = 50)
    /\ (forall e, py_int int_of_str size = Raise e -> n = 50)
    /\ (forall z, pyval_truthy size = true ->
        py_int int_of_str size = Ok z -> n = if z <=? 0 then 50 else z).
Proof.
  unfold __init__. unfold bind at 1 2, modify at 1, try_except.
  unfold bind at 1 2 3, modify at 1 2 3, gets at 1, lift at 1, ret at 1 2.
  destruct (pyval_truthy size); [destruct (py_int int_of_str size) as [z|e]|];
    cbn [batch_size set_batch_size set_target_date].
  - destruct (z <=? 0) eqn:E; eexists; (split; [reflexivity|]);
      repeat split; intros; try congruence; try lia.
    all: match goal with H : Ok _ = Ok _ |- _ => injection H as <- end;
      now rewrite E.
  - eexists; (split; [reflexivity|]); repeat split; intros; congruence || lia.
  - eexists; (split; [reflexivity|]); repeat split; intros; congruence || lia.
Qed.

Lemma db_call_size (n : Z) (c : dbcall) :
  preserves (fun s => batch_size s = n) (db_call c).
Proof.
  intros s H. unfold db_call.
  destruct (hd false (faults s)); [exact H|].
  destruct (effect c (db s)); exact H.
Qed.

Ltac keeps_by lem :=
  repeat first
    [ apply preserves_bind; [|intros ?]
    | apply preserves_for_each; intros ?
    | apply preserves_try_except; [|intros ?]
    | apply preserves_try_finally
    | apply preserves_if
    | apply preserves_ret
    | apply preserves_raise
    | apply preserves_lift
    | apply preserves_gets
    | apply lem
    | apply preserves_modify; intros ? ?; assumption
    | match goal with
      | |- preserves _ (match ?x with _ => _ end) => destruct x
      end ].

(** X1: whatever the arguments and whether or not the database calls
    raise, [__init__] leaves a positive [batch_size]: the integer given,
    or the integer [int] reads in a non-empty string, when that is
    positive, and 50 in every other case ([None], zero, the empty string,
    a string [int] refuses, a negative number). *)
Theorem init_batch_size (int_of_str : pystr -> option Z)
    (date : option pystr) (size : pyval) (s : state) :
  let n := batch_size (snd (__init__ int_of_str date size s)) in
  0 < n
  /\ (forall z, size = PyInt z -> n = if z <=? 0 then 50 else z)
  /\ (size = PyNone -> n = 50)
  /\ (size = PyStr [] -> n = 50)
  /\ (forall str, size = PyStr str -> int_of_str str = None -> n = 50)
  /\ (forall str z, size = PyStr str -> str <> [] ->
      int_of_str str = Some z -> n = if z <=? 0 then 50 else z).
Proof.
  destruct (init_unfold_size int_of_str date size s)
    as (n & -> & Hpos & Hfalsy & Hraise & Hint).
  assert (Hkeep : batch_size
            (snd ((db_call Connect ;;
                   db_call (Execute PragmaJournalWAL) ;;
                   db_call (Execute PragmaSynchronousNormal) ;;
                   db_call Commit ;;
                   _init_db ;;
                   modify (set_buf []) ;;
                   modify (set_queued 0) ;;
                   modify (set_parsed 0))
                    (set_batch_size n (set_target_date date s)))) = n).
  { apply (@preserves_bind (fun s => batch_size s = n));
      [apply db_call_size| |reflexivity].
    intros _. unfold _init_db. keeps_by (db_call_size n). }
  cbv zeta. rewrite Hkeep. split; [exact Hpos|].
  split; [|split; [|split; [|split]]].
  - intros z ->. destruct (z =? 0) eqn:E.
    + apply Z.eqb_eq in E. subst z. now apply Hfalsy; simpl.
    + apply Hint; simpl; [now rewrite E|reflexivity].
  - intros ->. now apply Hfalsy.
  - intros ->. now apply Hfalsy.
  - intros str ->. intros Hnone. destruct str as [|c str].
    + now apply Hfalsy.
    + apply (Hraise ValueError). simpl. now rewrite Hnone.
  - intros str z -> Hne Hsome. apply Hint.
    + now apply str_truthy_true.
    + simpl. now rewrite Hsome.
Qed.

Lemma init_batch_size_witness :
  batch_size (snd (__init__ int_refusing None (PyStr (str_of "ten"))
                     (blank None [true]))) = 50
  /\ batch_size (snd (__init__ int_refusing None (PyInt 7) (blank None [])))
     = 7.
Proof.
  split.
  - apply (proj2 (proj2 (proj2 (proj2
             (init_batch_size int_refusing None (PyStr (str_of "ten"))
                (blank None [true])))))) with (str := str_of "ten");
      reflexivity.
  - apply (proj1 (proj2
             (init_batch_size int_refusing None (PyInt 7) (blank None [])))
           7). reflexivity.
Defined.

(** What [__init__] leaves, by outcome. *)
Lemma init_outcome (int_of_str : pystr -> option Z) (date : option pystr)
    (size : pyval) (file : option (list Row)) (fs : list bool)
    (o : outcome unit) (s : state) :
  __init__ int_of_str date size (blank file fs) = (o, s) ->
  rows_of (durable (db s)) = rows_of file
  /\ yielded s = []
  /\ target_date s = date
  /\ (o = Ok tt ->
      journal s = init_journal
      /\ opened (db s) = true
      /\ durable (db s) = create_if_absent file
      /\ working (db s) = create_if_absent file
      /\ faults s = tl (tl (tl (tl (tl (tl fs)))))
      /\ _buf s = [] /\ _queued s = 0 /\ _parsed s = 0)
  /\ (healthy fs -> o = Ok tt).
Proof.
  destruct (init_unfold int_of_str date size (blank file fs)) as [n ->].
  unfold _init_db, blank, init_journal. unfold_spider. split_db;
    intros H; injection H as <- <-; project;
    repeat split; intros; try congruence; try no_fault; try reflexivity;
    try (destruct file; reflexivity).
Qed.

(** X2: constructing the spider never loses a stored row and writes none:
    whatever the arguments and whichever database call raises, the rows of
    the table are those the file had.  When [__init__] returns, the
    connection is open on a table that exists (created empty if the file
    had none), nothing is uncommitted, the buffer is empty and both
    counters are zero; and with a healthy database it does return. *)
Theorem init_keeps_rows (int_of_str : pystr -> option Z)
    (date : option pystr) (size : pyval) (file : option (list Row))
    (fs : list bool) :
  let '(o, s) := __init__ int_of_str date size (blank file fs) in
  rows_of (durable (db s)) = rows_of file
  /\ writes (journal s) = 0%nat
  /\ yielded s = []
  /\ target_date s = date
  /\ (o = Ok tt ->
      journal s = init_journal
      /\ opened (db s) = true
      /\ durable (db s) = create_if_absent file
      /\ working (db s) = create_if_absent file
      /\ _buf s = [] /\ _queued s = 0 /\ _parsed s = 0)
  /\ (healthy fs -> o = Ok tt).
Proof.
  destruct (init_unfold int_of_str date size (blank file fs)) as [n ->].
  unfold _init_db, blank, init_journal. unfold_spider. split_db;
    repeat split; intros; try congruence; try no_fault; try reflexivity;
    try (destruct file; reflexivity).
Qed.

Lemma init_keeps_rows_witness :
  let run := __init__ int_refusing None (PyInt 2)
               (blank (Some [sample_row "1301"]) []) in
  fst run = Ok tt
  /\ durable (db (snd run)) = Some [sample_row "1301"].
Proof.
  pose proof (init_keeps_rows int_refusing None (PyInt 2)
                (Some [sample_row "1301"]) []) as H.
  destruct (__init__ _ _ _ _) as [o s]. simpl.
  destruct H as (_ & _ & _ & _ & Hok & Hh).
  assert (Ho : o = Ok tt) by (apply Hh; constructor).
  split; [exact Ho|]. now destruct (Hok Ho) as (_ & _ & Hd & _).
Defined.

(** X3: on an open connection and with a healthy database, [_init_db]
    returns, leaves a table that exists with the rows the connection saw,
    nothing uncommitted; running it again changes nothing in the
    database. *)
Theorem init_db_idempotent (s : state) :
  healthy (faults s) -> opened (db s) = true ->
  let '(o1, s1) := _init_db s in
  let '(o2, s2) := _init_db s1 in
  o1 = Ok tt /\ o2 = Ok tt
  /\ working (db s1) = create_if_absent (working (db s))
  /\ rows_of (working (db s1)) = rows_of (working (db s))
  /\ durable (db s1) = working (db s1)
  /\ db s2 = db s1.
Proof.
  intros Hh Ho. unfold _init_db. unfold_spider. rewrite Ho. project.
  split_db; try no_fault; try congruence.
  repeat split; destruct (working (db s)); reflexivity.
Qed.

Lemma init_db_idempotent_witness :
  db (snd (_init_db (snd (_init_db sample_pending))))
  = db (snd (_init_db sample_pending)).
Proof.
  assert (Hh : healthy (faults sample_pending)) by (vm_compute; constructor).
  pose proof (init_db_idempotent sample_pending Hh eq_refl) as H.
  destruct (_init_db sample_pending) as [o1 s1]. simpl.
  destruct (_init_db s1) as [o2 s2]. simpl.
  now destruct H as (_ & _ & _ & _ & _ & H).
Defined.

(* ------------------------------------------------------------------ *)
(** ** The first step *)

Lemma start_requests_accepts (strptime_Ymd : pystr -> bool) (s : state) :
  date_rejected strptime_Ymd (target_date s) = false ->
  start_requests strptime_Ymd s
  = (Ok tt,
     push_request (start_request (str_of "https://example.com/markets/list/"))
       s).
Proof.
  unfold date_rejected, start_requests, start_urls, start_request.
  unfold_spider.
  destruct (target_date s) as [d|]; [|discriminate].
  destruct (str_truthy d); [|discriminate].
  simpl. intros H. apply negb_false_iff in H. rewrite H. reflexivity.
Qed.

(** X4: with a healthy database, a run whose target date is a non-empty
    string that [strptime] accepts is constructed and started without an
    exception: exactly one request is handed to the engine, for the start
    URL, with [parse_list] as callback and duplicate filtering off; the
    store has seen the six calls of [__init__] and no write; and a run
    returns from its start only if its date is accepted. *)
Theorem launch_accepts (int_of_str : pystr -> option Z)
    (strptime_Ymd : pystr -> bool) (date : option pystr) (size : pyval)
    (file : option (list Row)) (fs : list bool) :
  let '(o, s) := launch int_of_str strptime_Ymd date size (blank file fs) in
  (healthy fs -> date_rejected strptime_Ymd date = false ->
   o = Ok tt
   /\ yielded s
      = [start_request (str_of "https://example.com/markets/list/")]
   /\ journal s = init_journal
   /\ rows_of (durable (db s)) = rows_of file
   /\ _buf s = [] /\ target_date s = date)
  /\ (o = Ok tt -> date_rejected strptime_Ymd date = false).
Proof.
  unfold launch. unfold bind at 1.
  destruct (__init__ int_of_str date size (blank file fs)) as [o0 s0] eqn:E.
  destruct (init_outcome _ _ _ _ _ _ _ E) as (Hrows & Hy & Hd & Hok & Hh).
  destruct o0 as [[]|e].
  - destruct (Hok eq_refl) as (Hj & _ & _ & _ & _ & Hb & _).
    destruct (date_rejected strptime_Ymd date) eqn:Hdate.
    + rewrite start_requests_rejects by (now rewrite Hd).
      split; intros; discriminate.
    + rewrite start_requests_accepts by (now rewrite Hd). project.
      rewrite Hy. repeat split; auto.
  - split; [|discriminate]. intros Hfs. specialize (Hh Hfs). discriminate Hh.
Qed.

Lemma launch_accepts_witness :
  let run := launch int_refusing strptime_accepting
               (Some (str_of "20240115")) (PyInt 2) (blank None []) in
  fst run = Ok tt
  /\ yielded (snd run)
     = [start_request (str_of "https://example.com/markets/list/")].
Proof.
  pose proof (launch_accepts int_refusing strptime_accepting
                (Some (str_of "20240115")) (PyInt 2) None []) as H.
  destruct (launch _ _ _ _ _) as [o s]. simpl.
  destruct H as [H _].
  destruct (H ltac:(constructor) eq_refl) as (Ho & Hy & _). auto.
Defined.

(* ------------------------------------------------------------------ *)
(** ** The listing, request by request *)

Lemma crawl_only_refl (s : state) : crawl_only s s.
Proof. unfold crawl_only. repeat split; reflexivity. Qed.

Lemma crawl_only_trans (s1 s2 s3 : state) :
  crawl_only s1 s2 -> crawl_only s2 s3 -> crawl_only s1 s3.
Proof.
  unfold crawl_only.
  intros (? & ? & ? & ? & ? & ? & ?) (? & ? & ? & ? & ? & ? & ?).
  repeat split; congruence.
Qed.

Lemma row_stubs_are_stubs (base : pystr) (row : Selector) :
  Forall (stub_request base) (row_stubs base row)
  /\ (List.length (row_stubs base row) <= 1)%nat.
Proof.
  unfold row_stubs, row_fields.
  destruct (xpath_get row xp_td1_text) as [[code|]|];
    try solve [split; [constructor|simpl; lia]].
  destruct (xpath_get row xp_td2_text) as [[name|]|];
    try solve [split; [constructor|simpl; lia]].
  destruct (xpath_get row xp_td2_href) as [[href|]|];
    try solve [split; [constructor|simpl; lia]].
  destruct (str_truthy code) eqn:Hc, (str_truthy name) eqn:Hn,
    (str_truthy href) eqn:Hh; simpl;
    try solve [split; [constructor|simpl; lia]].
  split; [|lia]. constructor; [|constructor].
  exists code, name, href. apply str_truthy_true in Hc, Hn, Hh. auto.
Qed.

(** One row of the listing: it is gone through, with its request if it
    has one, or it raises and yields nothing, the counter having been
    incremented if it was the request that could not be made. *)
Lemma parse_list_row_cases (join_accepted : pystr -> pystr -> bool)
    (response : Response) (row : Selector) (s : state) :
  let '(o, s') := parse_list_row join_accepted response row s in
  crawl_only s s'
  /\ ((o = Ok tt
       /\ yielded s' = yielded s ++ row_stubs (resp_url response) row
       /\ _queued s'
          = _queued s
            + Z.of_nat (List.length (row_stubs (resp_url response) row)))
      \/ (o <> Ok tt /\ yielded s' = yielded s
          /\ (_queued s' = _queued s \/ _queued s' = _queued s + 1))).
Proof.
  unfold parse_list_row, row_stubs, row_fields, joined_request.
  unfold_spider.
  destruct (xpath_get row xp_td1_text) as [code|];
    [|split; [apply crawl_only_refl|right; repeat split; auto; discriminate]].
  destruct (xpath_get row xp_td2_text) as [name|];
    [|split; [apply crawl_only_refl|right; repeat split; auto; discriminate]].
  destruct (xpath_get row xp_td2_href) as [href|];
    [|split; [apply crawl_only_refl|right; repeat split; auto; discriminate]].
  destruct code as [code|], name as [name|], href as [href|];
    try (split; [apply crawl_only_refl|left];
         simpl; rewrite app_nil_r, Z.add_0_r; auto).
  destruct (str_truthy code && str_truthy name && str_truthy href);
    [|split; [apply crawl_only_refl|left];
      simpl; rewrite app_nil_r, Z.add_0_r; auto].
  destruct (join_accepted (resp_url response) href); project.
  - split; [unfold crawl_only; repeat split; reflexivity|left].
    simpl. auto.
  - split; [unfold crawl_only; repeat split; reflexivity|right].
    repeat split; auto. discriminate.
Qed.

(** The loop over the rows: the rows gone through are an initial segment
    of the rows, and their requests were yielded in their order. *)
Lemma parse_list_rows_cases (join_accepted : pystr -> pystr -> bool)
    (response : Response) (rows : list Selector) :
  forall s,
    let '(o, s') :=
      for_each rows (parse_list_row join_accepted response) s in
    crawl_only s s'
    /\ exists through rest,
         rows = through ++ rest
         /\ yielded s'
            = yielded s ++ flat_map (row_stubs (resp_url response)) through
         /\ (o = Ok tt -> rest = [])
         /\ (_queued s'
             = _queued s
               + Z.of_nat (List.length
                   (flat_map (row_stubs (resp_url response)) through))
             \/ (o <> Ok tt
                 /\ _queued s'
                    = _queued s
                      + Z.of_nat (List.length
                          (flat_map (row_stubs (resp_url response)) through))
                      + 1)).
Proof.
  induction rows as [|row rows IH]; intros s.
  - simpl. split; [apply crawl_only_refl|]. exists [], [].
    simpl. rewrite app_nil_r, Z.add_0_r. auto.
  - cbn [for_each]. unfold bind.
    pose proof (parse_list_row_cases join_accepted response row s) as Hrow.
    destruct (parse_list_row join_accepted response row s) as [o1 s1].
    destruct Hrow as (Hc1 & [(-> & Hy1 & Hq1)|(Hno & Hy1 & Hq1)]).
    + specialize (IH s1).
      destruct (for_each rows (parse_list_row join_accepted response) s1)
        as [o s'].
      destruct IH as (Hc & through & rest & -> & Hy & Hrest & Hq).
      split; [now apply crawl_only_trans with s1|].
      exists (row :: through), rest. cbn [flat_map app].
      rewrite Hy, Hy1, <- app_assoc, length_app, Nat2Z.inj_add.
      split; [reflexivity|]. split; [reflexivity|]. split; [exact Hrest|].
      destruct Hq as [Hq|[Hn Hq]]; [left|right; split; [exact Hn|]]; lia.
    + destruct o1 as [[]|e]; [congruence|].
      split; [exact Hc1|]. exists [], (row :: rows). simpl.
      rewrite app_nil_r, Z.add_0_r.
      split; [reflexivity|]. split; [exact Hy1|]. split; [discriminate|].
      destruct Hq1 as [Hq1|Hq1]; [now left|right].
      split; [discriminate|exact Hq1].
Qed.

(** The link to the next page: its request or none is yielded, nothing is
    counted. *)
Lemma parse_list_next_cases (join_accepted : pystr -> pystr -> bool)
    (response : Response) (s : state) :
  let '(o, s') := parse_list_next join_accepted response s in
  crawl_only s s' /\ _queued s' = _queued s
  /\ ((o = Ok tt /\ yielded s' = yielded s ++ next_link response)
      \/ (o <> Ok tt /\ yielded s' = yielded s)).
Proof.
  unfold parse_list_next, next_link, joined_request. unfold_spider.
  destruct (xpath_get (resp_sel response) xp_next) as [[href|]|e].
  - destruct (str_truthy href).
    + destruct (join_accepted (resp_url response) href); project.
      * split; [unfold crawl_only; repeat split; reflexivity|].
        split; [reflexivity|]. left. auto.
      * split; [apply crawl_only_refl|]. split; [reflexivity|].
        right. split; [discriminate|reflexivity].
    + split; [apply crawl_only_refl|]. split; [reflexivity|].
      left. now rewrite app_nil_r.
  - split; [apply crawl_only_refl|]. split; [reflexivity|].
    left. now rewrite app_nil_r.
  - split; [apply crawl_only_refl|]. split; [reflexivity|].
    right. split; [discriminate|reflexivity].
Qed.

Lemma next_link_shape (response : Response) :
  next_link response = []
  \/ exists href, href <> []
       /\ next_link response = [next_request (resp_url response) href].
Proof.
  unfold next_link.
  destruct (xpath_get (resp_sel response) xp_next) as [[href|]|e]; auto.
  destruct (str_truthy href) eqn:H; auto.
  right. exists href. apply str_truthy_true in H. auto.
Qed.

(** X5: whatever the page, [parse_list] only yields requests and counts
    them; the store, the journal, the buffer and [_parsed] are untouched.
    It goes through the rows in order and yields one detail request for
    each row gone through that has a non-empty code, name and link, none
    for the others, then at most the request for the next page.  When it
    returns it has gone through every row, the next-page request is the
    one the page links to, and [_queued] has grown by exactly the number
    of detail requests.  When it raises (a query, or a link
    [scrapy.Request] refuses) the rows gone through are an initial
    segment, no next-page request is made, and [_queued] has grown by the
    number of detail requests or by one more, the counter being
    incremented before the request is made. *)
Theorem parse_list_counts (join_accepted : pystr -> pystr -> bool)
    (response : Response) (s : state) :
  let '(o, s') := parse_list join_accepted response s in
  let base := resp_url response in
  crawl_only s s'
  /\ exists through next,
       let stubs := flat_map (row_stubs base) through in
       yielded s' = yielded s ++ stubs ++ next
       /\ Forall (stub_request base) stubs
       /\ (List.length stubs <= List.length through)%nat
       /\ (forall rows, xpath (resp_sel response) xp_rows = Ok rows ->
           exists rest, rows = through ++ rest)
       /\ (o = Ok tt ->
           xpath (resp_sel response) xp_rows = Ok through
           /\ next = next_link response
           /\ _queued s' = _queued s + Z.of_nat (List.length stubs))
       /\ (o <> Ok tt ->
           next = []
           /\ (_queued s' = _queued s + Z.of_nat (List.length stubs)
               \/ _queued s' = _queued s + Z.of_nat (List.length stubs) + 1)).
Proof.
  assert (Hstubs : forall through,
            Forall (stub_request (resp_url response))
              (flat_map (row_stubs (resp_url response)) through)
            /\ (List.length (flat_map (row_stubs (resp_url response)) through)
                <= List.length through)%nat).
  { induction through as [|row through [IH1 IH2]]; simpl;
      [split; [constructor|lia]|].
    destruct (row_stubs_are_stubs (resp_url response) row) as [H1 H2].
    split; [now apply Forall_app|]. rewrite length_app. lia. }
  unfold parse_list. unfold bind at 1, lift at 1.
  destruct (xpath (resp_sel response) xp_rows) as [rows|e] eqn:Hrows.
  - unfold bind.
    pose proof (parse_list_rows_cases join_accepted response rows s) as Hloop.
    destruct (for_each rows (parse_list_row join_accepted response) s)
      as [o1 s1].
    destruct Hloop as (Hc1 & through & rest & -> & Hy1 & Hrest & Hq1).
    destruct (Hstubs through) as [Hf Hlen].
    destruct o1 as [[]|e].
    + rewrite (Hrest eq_refl), app_nil_r in *.
      destruct Hq1 as [Hq1|[Hbad _]]; [|congruence].
      pose proof (parse_list_next_cases join_accepted response s1) as Hnext.
      destruct (parse_list_next join_accepted response s1) as [o s'].
      destruct Hnext as (Hc & Hq & [(-> & Hy)|(Hno & Hy)]).
      * cbv zeta. split; [now apply crawl_only_trans with s1|].
        exists through, (next_link response). cbv zeta.
        rewrite Hy, Hy1, Hq, Hq1, <- app_assoc.
        split; [reflexivity|]. split; [exact Hf|]. split; [exact Hlen|].
        split; [intros rows0 H0; injection H0 as <-; exists [];
                now rewrite app_nil_r|].
        split; [auto|congruence].
      * cbv zeta. split; [now apply crawl_only_trans with s1|].
        exists through, []. cbv zeta.
        rewrite Hy, Hy1, Hq, Hq1, app_nil_r.
        split; [reflexivity|]. split; [exact Hf|]. split; [exact Hlen|].
        split; [intros rows0 H0; injection H0 as <-; exists [];
                now rewrite app_nil_r|].
        split; [intros H0; contradiction|auto].
    + cbv zeta. split; [exact Hc1|]. exists through, []. cbv zeta.
      rewrite Hy1, app_nil_r.
      split; [reflexivity|]. split; [exact Hf|]. split; [exact Hlen|].
      split; [intros rows0 H0; injection H0 as <-; now exists rest|].
      split; [discriminate|]. intros _. split; [reflexivity|].
      destruct Hq1 as [Hq1|[_ Hq1]]; auto.
  - cbv zeta. split; [apply crawl_only_refl|]. exists [], []. simpl.
    rewrite app_nil_r, Z.add_0_r.
    split; [reflexivity|]. split; [constructor|]. split; [lia|].
    split; [discriminate|]. split; [discriminate|]. auto.
Qed.

Lemma parse_list_counts_witness :
  let page := listing_page [good_row_1; script_row; good_row_2]
                (Some (str_of "?page=2")) in
  let run := parse_list join_refusing_javascript page sample_spider in
  fst run <> Ok tt
  /\ exists through rest,
       [good_row_1; script_row; good_row_2] = through ++ rest
       /\ yielded (snd run)
          = yielded sample_spider
            ++ flat_map (row_stubs (resp_url page)) through.
Proof.
  intros page run.
  assert (Hrun : fst run <> Ok tt) by (vm_compute; discriminate).
  split; [exact Hrun|].
  pose proof (parse_list_counts join_refusing_javascript page sample_spider)
    as H.
  fold run in H. destruct run as [o s']. cbv zeta in H. simpl in Hrun |- *.
  destruct H as (_ & through & next & Hy & _ & _ & Hrows & _ & Hraise).
  destruct (Hraise Hrun) as [-> _]. rewrite app_nil_r in Hy.
  destruct (Hrows [good_row_1; script_row; good_row_2] eq_refl)
    as [rest Hrest].
  exists through, rest. split; [exact Hrest|exact Hy].
Defined.

(* ------------------------------------------------------------------ *)
(** ** The fields of a record *)

Lemma lstrip_empty (v : pystr) : lstrip v = [] <-> forallb isspace v = true.
Proof.
  induction v as [|c v IH]; simpl; [tauto|].
  destruct (isspace c); simpl; [exact IH|]. split; discriminate.
Qed.

(** [strip] leaves nothing exactly of the strings made of spaces. *)
Lemma strip_empty (v : pystr) : strip v = [] <-> forallb isspace v = true.
Proof.
  rewrite <- lstrip_empty. split.
  - intros H. pose proof (lstrip_starts_clean v) as Hc.
    unfold strip, rstrip in H.
    apply (f_equal (@rev N)) in H. rewrite rev_involutive in H. simpl in H.
    apply lstrip_empty in H.
    destruct (lstrip v) as [|c u]; [reflexivity|]. simpl in Hc.
    rewrite forallb_forall in H.
    rewrite (H c) in Hc; [discriminate|].
    apply in_rev. rewrite rev_involutive. now left.
  - intros H. unfold strip. now rewrite H.
Qed.

(** X6: what [_get] returns never has a space at either end, and it is
    the empty string exactly when the first match is a non-empty string
    made of whitespace only: such a field is stored empty, not as the
    sentinel. *)
Theorem get_result_clean (resp : Response) (xp : pystr) :
  strip (_get resp xp) = _get resp xp
  /\ (_get resp xp = [] <->
      exists nodes v,
        xpath (resp_sel resp) xp = Ok nodes /\ get nodes = Some v
        /\ v <> [] /\ forallb isspace v = true).
Proof.
  unfold _get, xpath_get.
  destruct (xpath (resp_sel resp) xp) as [nodes|e].
  - destruct (get nodes) as [[|c v]|] eqn:Hget; simpl.
    + split; [reflexivity|]. split; [discriminate|].
      intros (n & w & Hn & Hw & Hne & _). injection Hn as <-. congruence.
    + split; [apply strip_idempotent|]. split.
      * intros H. exists nodes, (c :: v).
        repeat split; auto; [discriminate|]. now apply strip_empty.
      * intros (n & w & Hn & Hw & _ & Hs). injection Hn as <-.
        rewrite Hget in Hw. injection Hw as <-. now apply strip_empty.
    + split; [reflexivity|]. split; [discriminate|].
      intros (n & w & Hn & Hw & _). injection Hn as <-. congruence.
  - split; [reflexivity|]. split; [discriminate|].
    intros (n & w & Hn & _). discriminate Hn.
Qed.

Lemma get_result_clean_witness :
  _get (detail_page "1301" "Acme" [(xp_pe, str_of "  ")]) xp_pe = [].
Proof.
  apply (proj2 (get_result_clean
                  (detail_page "1301" "Acme" [(xp_pe, str_of "  ")]) xp_pe)).
  exists [text_node (str_of "  ")], (str_of "  ").
  repeat split; [discriminate].
Defined.

Lemma with_pct_shape (s : option pystr) :
  _with_pct s <> [] /\ (_with_pct s = NA \/ exists p, _with_pct s = p ++ pct).
Proof.
  destruct (with_pct_cases s) as [[_ R]|[(H1 & _ & H3 & R)|(H1 & _ & _ & R)]];
    rewrite R.
  - split; [discriminate|now left].
  - split; [exact H1|]. right. now apply endswith_iff.
  - split; [destruct (strip (or_empty s)); discriminate|]. right. eauto.
Qed.

(** X7: in the tuple [parse_detail] builds, the date, the code and the
    name are those of the spider and of the request; each of the three
    percentage columns is the sentinel or ends with a percent sign and is
    never empty, whatever the page holds; and a percentage field the page
    lacks, or holds as whitespace only, is the sentinel. *)
Theorem build_row_columns (date : option pystr) (code name : pystr)
    (response : Response) :
  let r := build_row date code name response in
  col_target_date r = date /\ col_code r = code /\ col_name r = name
  /\ (forall c,
        In c [col_dividend_yield r; col_roe r; col_earning_yield r] ->
        c <> [] /\ (c = NA \/ exists p, c = p ++ pct))
  /\ (_get response xp_div_yld = NA \/ _get response xp_div_yld = [] ->
      col_dividend_yield r = NA)
  /\ (_get response xp_roe = NA \/ _get response xp_roe = [] ->
      col_roe r = NA)
  /\ (_get response xp_earn_yld = NA \/ _get response xp_earn_yld = [] ->
      col_earning_yield r = NA).
Proof.
  cbv zeta. unfold build_row. cbn [col_target_date col_code col_name
    col_dividend_yield col_roe col_earning_yield].
  split; [reflexivity|]. split; [reflexivity|]. split; [reflexivity|].
  split; [|repeat split; intros [-> | ->]; reflexivity].
  intros c [<-|[<-|[<-|[]]]]; apply with_pct_shape.
Qed.

Lemma build_row_columns_witness :
  col_roe (build_row None (str_of "1301") (str_of "Acme")
             (sample_detail "1301" "Acme")) <> []
  /\ col_dividend_yield (build_row None (str_of "1301") (str_of "Acme")
                           (sample_detail "1301" "Acme")) = NA.
Proof.
  pose proof (build_row_columns None (str_of "1301") (str_of "Acme")
                (sample_detail "1301" "Acme")) as H.
  cbv zeta in H. destruct H as (_ & _ & _ & Hpct & Hdiv & _).
  split.
  - apply (Hpct _ (or_intror (or_introl eq_refl))).
  - apply Hdiv. left. reflexivity.
Defined.

(* ------------------------------------------------------------------ *)
(** ** Records between the buffer and the store *)

Lemma upsert_many_app (a b t : list Row) :
  upsert_many (a ++ b) t = upsert_many b (upsert_many a t).
Proof. unfold upsert_many. apply fold_left_app. Qed.

(** One [append] against a healthy store. *)
Lemma append_healthy (r : Row) (s : state) (t : list Row) :
  healthy (faults s) -> opened (db s) = true -> working (db s) = Some t ->
  exists s' t',
    append r s = (Ok tt, s')
    /\ healthy (faults s') /\ opened (db s') = true
    /\ working (db s') = Some t'
    /\ (durable (db s) = Some t -> durable (db s') = Some t')
    /\ upsert_many (_buf s') t' = upsert_many (_buf s ++ [r]) t
    /\ received (journal s') ++ _buf s'
       = received (journal s) ++ _buf s ++ [r]
    /\ _parsed s' = _parsed s + 1
    /\ batch_size s' = batch_size s.
Proof.
  intros Hh Ho Hw.
  destruct (Z_lt_le_dec (Z.of_nat (List.length (_buf s)) + 1) (batch_size s))
    as [Hlt|Hge].
  - rewrite (append_below r s Hlt). eexists _, t. project.
    repeat split; auto.
  - rewrite (append_reaching r s Hge).
    destruct (_flush _) as [o s'] eqn:Hrun.
    destruct (flush_outcome _ _ _ Hrun)
      as ((_ & Hb & _ & Hp & _) & _ & Hfull & _ & Hok). project.
    assert (o = Ok tt) as -> by (apply Hok; [exact Hh|split; congruence]).
    destruct Hfull as (Hj & Hbuf & Hf & t0 & Hw0 & Hdb);
      [destruct (_buf s); discriminate|reflexivity|].
    rewrite Hw in Hw0. injection Hw0 as <-.
    exists s', (upsert_many (_buf s ++ [r]) t).
    rewrite Hdb, Hbuf, Hf, Hj, Hp, Hb. simpl.
    rewrite received_app. simpl. rewrite !app_nil_r.
    repeat split; auto using healthy_tl.
Qed.

Lemma appends_healthy (rows : list Row) :
  forall (s : state) (t : list Row),
    healthy (faults s) -> opened (db s) = true -> working (db s) = Some t ->
    exists s' t',
      for_each rows append s = (Ok tt, s')
      /\ healthy (faults s') /\ opened (db s') = true
      /\ working (db s') = Some t'
      /\ (durable (db s) = Some t -> durable (db s') = Some t')
      /\ upsert_many (_buf s') t' = upsert_many (_buf s ++ rows) t
      /\ received (journal s') ++ _buf s'
         = received (journal s) ++ _buf s ++ rows
      /\ _parsed s' = _parsed s + Z.of_nat (List.length rows)
      /\ batch_size s' = batch_size s.
Proof.
  induction rows as [|r rows IH]; intros s t Hh Ho Hw.
  - exists s, t. simpl. rewrite app_nil_r, Z.add_0_r. repeat split; auto.
  - destruct (append_healthy r s t Hh Ho Hw)
      as (s1 & t1 & Hrun & Hh1 & Ho1 & Hw1 & Hd1 & Hu1 & Hr1 & Hp1 & Hb1).
    destruct (IH s1 t1 Hh1 Ho1 Hw1)
      as (s2 & t2 & Hrun2 & Hh2 & Ho2 & Hw2 & Hd2 & Hu2 & Hr2 & Hp2 & Hb2).
    exists s2, t2. cbn [for_each]. unfold bind. rewrite Hrun, Hrun2.
    assert (Hcons : forall l : list Row, l ++ r :: rows = (l ++ [r]) ++ rows)
      by (intros l; now rewrite <- app_assoc).
    split; [reflexivity|]. split; [exact Hh2|]. split; [exact Ho2|].
    split; [exact Hw2|]. split; [auto|].
    split; [|split; [|split]].
    + rewrite Hu2, Hcons, !upsert_many_app, Hu1, upsert_many_app.
      reflexivity.
    + rewrite Hr2, app_assoc, Hr1, Hcons, <- !app_assoc. reflexivity.
    + rewrite Hp2, Hp1. simpl List.length. rewrite Nat2Z.inj_succ. lia.
    + congruence.
Qed.

(** The shutdown against a healthy store. *)
Lemma closed_healthy (reason : pystr) (s : state) (t : list Row) :
  healthy (faults s) -> opened (db s) = true ->
  working (db s) = Some t -> durable (db s) = Some t ->
  exists s',
    closed reason s = (Ok tt, s')
    /\ _buf s' = [] /\ opened (db s') = false
    /\ durable (db s') = Some (upsert_many (_buf s) t)
    /\ received (journal s') = received (journal s) ++ _buf s
    /\ _parsed s' = _parsed s.
Proof.
  intros Hh Ho Hw Hd. unfold closed, _flush. unfold_spider.
  destruct (_buf s) as [|r buf] eqn:Hbuf; project; split_db;
    try no_fault; try congruence; eexists; (split; [reflexivity|]); project;
    rewrite ?received_app; simpl; rewrite ?app_nil_r.
  - repeat split; auto.
  - injection Hw as ->. repeat split; auto.
Qed.

(** X8: with a healthy store, an open connection and a table that
    exists, any number of appends returns, and no record is lost,
    duplicated or reordered on the way: the rows the store has accepted,
    followed by the pending ones, are the rows accepted before, the
    records that were pending and the appended records, in that order;
    [_parsed] has grown by the number of appends. *)
Theorem appends_account (rows : list Row) (s : state) :
  healthy (faults s) -> ready (db s) ->
  let '(o, s') := for_each rows append s in
  o = Ok tt
  /\ received (journal s') ++ _buf s'
     = received (journal s) ++ _buf s ++ rows
  /\ _parsed s' = _parsed s + Z.of_nat (List.length rows)
  /\ healthy (faults s') /\ ready (db s').
Proof.
  intros Hh [Ho Hw]. destruct (working (db s)) as [t|] eqn:Ht; [|congruence].
  destruct (appends_healthy rows s t Hh Ho Ht)
    as (s' & t' & -> & Hh' & Ho' & Hw' & _ & _ & Hr & Hp & _).
  repeat split; auto. congruence.
Qed.

Lemma appends_account_witness :
  let rows := [sample_row "1332"; sample_row "1333"; sample_row "1334"] in
  received (journal (snd (for_each rows append sample_pending)))
  ++ _buf (snd (for_each rows append sample_pending))
  = sample_row "1301" :: rows.
Proof.
  intros rows.
  assert (Hh : healthy (faults sample_pending)) by (vm_compute; constructor).
  assert (Hr : ready (db sample_pending))
    by (split; [reflexivity|discriminate]).
  pose proof (appends_account rows sample_pending Hh Hr) as H.
  destruct (for_each rows append sample_pending) as [o s']. simpl.
  destruct H as (_ & H & _). exact H.
Defined.

(** X9: with a healthy store and nothing uncommitted, appending records
    and then shutting down commits every pending and appended record, in
    order, whatever [batch_size] is: the table is the one a single
    [executemany] over all of them would have left; the buffer is empty
    and the connection closed. *)
Theorem drain_commits_all (rows : list Row) (reason : pystr) (s : state)
    (t : list Row) :
  healthy (faults s) -> opened (db s) = true ->
  working (db s) = Some t -> durable (db s) = Some t ->
  let '(o, s') := (for_each rows append ;; closed reason) s in
  o = Ok tt
  /\ durable (db s') = Some (upsert_many (_buf s ++ rows) t)
  /\ received (journal s') = received (journal s) ++ _buf s ++ rows
  /\ _buf s' = [] /\ opened (db s') = false
  /\ _parsed s' = _parsed s + Z.of_nat (List.length rows).
Proof.
  intros Hh Ho Hw Hd.
  destruct (appends_healthy rows s t Hh Ho Hw)
    as (s1 & t1 & Hrun & Hh1 & Ho1 & Hw1 & Hd1 & Hu1 & Hr1 & Hp1 & _).
  destruct (closed_healthy reason s1 t1 Hh1 Ho1 Hw1 (Hd1 Hd))
    as (s2 & Hrun2 & Hb2 & Ho2 & Hd2 & Hr2 & Hp2).
  unfold bind. rewrite Hrun, Hrun2.
  rewrite Hd2, Hr2, Hu1, Hr1, Hp2, Hp1. repeat split; auto.
Qed.

Lemma drain_commits_all_witness :
  let rows := [sample_row "1332"; sample_row "1333"] in
  durable (db (snd ((for_each rows append ;; closed (str_of "finished"))
                      sample_pending)))
  = Some (upsert_many (sample_row "1301" :: rows) []).
Proof.
  intros rows.
  assert (Hh : healthy (faults sample_pending)) by (vm_compute; constructor).
  pose proof (drain_commits_all rows (str_of "finished") sample_pending []
                Hh eq_refl eq_refl eq_refl) as H.
  destruct ((for_each rows append ;; closed (str_of "finished"))
              sample_pending) as [o s']. simpl.
  destruct H as (_ & H & _). exact H.
Defined.

(* ------------------------------------------------------------------ *)
(** ** Keys of the table *)

Lemma same_key_iff (code d : pystr) (r : Row) :
  same_key code (Some d) r = true
  <-> col_code r = code /\ col_target_date r = Some d.
Proof.
  unfold same_key. destruct (col_target_date r) as [d'|].
  - rewrite andb_true_iff, !str_eqb_eq. split.
    + intros [-> ->]. auto.
    + intros [-> H]. injection H as ->. auto.
  - split; [discriminate|intros [_ H]; discriminate H].
Qed.

Lemma filter_filter_weaker {A} (f g : A -> bool) (l : list A) :
  (forall x, f x = true -> g x = true) ->
  filter f (filter g l) = filter f l.
Proof.
  intros H. induction l as [|x l IH]; simpl; [reflexivity|].
  destruct (g x) eqn:Eg; simpl.
  - now rewrite IH.
  - destruct (f x) eqn:Ef; [|exact IH].
    apply H in Ef. congruence.
Qed.

(** An [INSERT OR REPLACE] leaves the rows of every other key alone. *)
Lemma insert_keeps_key (code d : pystr) (t : list Row) (r : Row) :
  same_key code (Some d) r = false ->
  filter (same_key code (Some d)) (insert_or_replace t r)
  = filter (same_key code (Some d)) t.
Proof.
  intros H. unfold insert_or_replace.
  rewrite filter_app. cbn [filter]. rewrite H, app_nil_r.
  apply filter_filter_weaker. intros x Hx.
  destruct (conflict r x) eqn:E; [|reflexivity]. exfalso.
  unfold conflict in E. apply same_key_iff in Hx as [Hc Hd].
  destruct (col_target_date r) as [dr|] eqn:Hr; [|discriminate E].
  apply same_key_iff in E as [Hc' Hd'].
  assert (Hk : same_key code (Some d) r = true)
    by (apply same_key_iff; split; congruence).
  congruence.
Qed.

Lemma upsert_many_keeps_key (code d : pystr) (rows : list Row) :
  forall t,
    (forall r, In r rows -> same_key code (Some d) r = false) ->
    filter (same_key code (Some d)) (upsert_many rows t)
    = filter (same_key code (Some d)) t.
Proof.
  induction rows as [|r rows IH]; intros t H; [reflexivity|].
  change (upsert_many (r :: rows) t)
    with (upsert_many rows (insert_or_replace t r)).
  rewrite IH by (intros x Hx; apply H; now right).
  apply insert_keeps_key, H. now left.
Qed.

(** X10: a flush never alters or removes the rows of a key that no
    pending record has: whatever its outcome, the rows the connection
    sees under such a key are the same after it as before. *)
Theorem flush_keeps_other_keys (s : state) (code d : pystr) :
  (forall r, In r (_buf s) -> same_key code (Some d) r = false) ->
  let '(o, s') := _flush s in
  filter (same_key code (Some d)) (rows_of (working (db s')))
  = filter (same_key code (Some d)) (rows_of (working (db s)))
  /\ (durable (db s) = working (db s) ->
      filter (same_key code (Some d)) (rows_of (durable (db s')))
      = filter (same_key code (Some d)) (rows_of (durable (db s)))).
Proof.
  intros H. unfold _flush. unfold_spider.
  destruct (_buf s) as [|r buf] eqn:Hbuf; project; [auto|].
  split_db; split; intros; try reflexivity; try congruence;
    cbn [rows_of]; try (now apply upsert_many_keeps_key).
  match goal with Hd : durable _ = Some _ |- _ => rewrite Hd end.
  now apply upsert_many_keeps_key.
Qed.

Lemma flush_keeps_other_keys_witness :
  filter (same_key (str_of "9999") (Some (str_of "20240115")))
    (rows_of (working (db (snd (_flush sample_pending)))))
  = filter (same_key (str_of "9999") (Some (str_of "20240115")))
      (rows_of (working (db sample_pending))).
Proof.
  pose proof (flush_keeps_other_keys sample_pending (str_of "9999")
                (str_of "20240115")) as H.
  destruct (_flush sample_pending) as [o s']. simpl.
  apply H. intros r [<-|[]]. reflexivity.
Defined.

(** X11: within a batch and across batches the last write of a key wins:
    after an [executemany] in which a record with a string date is followed
    by no record of the same key, that key selects exactly this record. *)
Theorem last_write_wins (pre post t : list Row) (r : Row) (d : pystr) :
  col_target_date r = Some d ->
  (forall x, In x post -> same_key (col_code r) (Some d) x = false) ->
  filter (same_key (col_code r) (Some d)) (upsert_many (pre ++ r :: post) t)
  = [r].
Proof.
  intros Hd Hpost.
  rewrite upsert_many_app.
  change (upsert_many (r :: post) (upsert_many pre t))
    with (upsert_many post (insert_or_replace (upsert_many pre t) r)).
  rewrite upsert_many_keeps_key by exact Hpost.
  now apply insert_or_replace_key.
Qed.

Lemma last_write_wins_witness :
  let old := mkRow (Some (str_of "20240115")) (str_of "1301") NA
               (str_of "Old") NA NA NA NA NA NA in
  filter (same_key (str_of "1301") (Some (str_of "20240115")))
    (upsert_many ([old] ++ sample_row "1301" :: [sample_row "1332"]) [old])
  = [sample_row "1301"].
Proof.
  intros old.
  apply (last_write_wins [old] [sample_row "1332"] [old] (sample_row "1301")
           (str_of "20240115") eq_refl).
  intros x [<-|[]]. reflexivity.
Defined.

Lemma insert_unique (t : list Row) (r : Row) :
  unique_keys t -> unique_keys (insert_or_replace t r).
Proof.
  intros Hu r0 d0 Hin Hd0.
  assert (Hself : same_key (col_code r0) (Some d0) r0 = true)
    by (now apply same_key_iff).
  destruct (same_key (col_code r0) (Some d0) r) eqn:Hk.
  - apply same_key_iff in Hk as [Hc Hd].
    assert (Hone : filter (same_key (col_code r0) (Some d0))
                     (insert_or_replace t r) = [r])
      by (rewrite <- Hc; now apply insert_or_replace_key).
    rewrite Hone.
    assert (Hr0 : In r0 [r])
      by (rewrite <- Hone; apply filter_In; auto).
    destruct Hr0 as [->|[]]. reflexivity.
  - rewrite insert_keeps_key by exact Hk.
    apply Hu; [|exact Hd0].
    unfold insert_or_replace in Hin. apply in_app_or in Hin as [Hin|[<-|[]]].
    + now apply filter_In in Hin.
    + congruence.
Qed.

(** X12: the uniqueness of the key is kept by every write: if no two rows
    of the table share a (code, target_date) key, none do after an
    [executemany] of [INSERT OR REPLACE] over any tuples. *)
Theorem upsert_many_unique (rows t : list Row) :
  unique_keys t -> unique_keys (upsert_many rows t).
Proof.
  revert t. induction rows as [|r rows IH]; intros t Hu; [exact Hu|].
  change (upsert_many (r :: rows) t)
    with (upsert_many rows (insert_or_replace t r)).
  apply IH. now apply insert_unique.
Qed.

Lemma upsert_many_unique_witness :
  unique_keys []
  /\ unique_keys (upsert_many [sample_row "1301"; sample_row "1301"] []).
Proof.
  assert (H : unique_keys []) by (intros r d []).
  split; [exact H|]. now apply upsert_many_unique.
Defined.

(* ------------------------------------------------------------------ *)
(** ** Writing a batch again *)

Lemma filter_filter {A} (f g : A -> bool) (l : list A) :
  filter f (filter g l) = filter (fun x => g x && f x) l.
Proof.
  induction l as [|x l IH]; simpl; [reflexivity|].
  destruct (g x); simpl; [destruct (f x); now rewrite IH|exact IH].
Qed.

Lemma filter_all_false {A} (f : A -> bool) (l : list A) :
  (forall x, In x l -> f x = false) -> filter f l = [].
Proof.
  induction l as [|x l IH]; intros H; simpl; [reflexivity|].
  rewrite (H x) by now left. apply IH. intros y Hy. apply H. now right.
Qed.

(** The rows of a table a batch displaces are those that collide with one
    of its tuples; the rest of the result depends on the batch alone. *)
Lemma upsert_many_split (rows : list Row) :
  forall t,
    upsert_many rows t
    = filter (fun x => negb (existsb (fun r => conflict r x) rows)) t
      ++ upsert_many rows [].
Proof.
  induction rows as [|r rows IH]; intros t.
  - simpl. rewrite app_nil_r. induction t as [|x t IHt]; simpl; congruence.
  - change (upsert_many (r :: rows) t)
      with (upsert_many rows (insert_or_replace t r)).
    change (upsert_many (r :: rows) [])
      with (upsert_many rows (insert_or_replace [] r)).
    rewrite (IH (insert_or_replace t r)), (IH (insert_or_replace [] r)).
    unfold insert_or_replace. cbn [filter app].
    rewrite filter_app, filter_filter, <- app_assoc.
    f_equal. apply filter_ext. intros x. cbn [existsb].
    now rewrite negb_orb.
Qed.

Lemma upsert_many_in (rows : list Row) :
  forall t x, In x (upsert_many rows t) -> In x t \/ In x rows.
Proof.
  induction rows as [|r rows IH]; intros t x H; [now left|].
  change (upsert_many (r :: rows) t)
    with (upsert_many rows (insert_or_replace t r)) in H.
  apply IH in H as [H|H]; [|right; now right].
  unfold insert_or_replace in H. apply in_app_or in H as [H|[<-|[]]].
  - left. now apply filter_In in H.
  - right. now left.
Qed.

Lemma upsert_many_idempotent (rows t : list Row) :
  Forall keyed rows ->
  upsert_many rows (upsert_many rows t) = upsert_many rows t.
Proof.
  intros Hk.
  rewrite (upsert_many_split rows (upsert_many rows t)).
  rewrite (upsert_many_split rows t) at 1.
  rewrite filter_app, filter_twice.
  rewrite (filter_all_false _ (upsert_many rows [])).
  - rewrite app_nil_r. symmetry. apply upsert_many_split.
  - intros x Hx. apply upsert_many_in in Hx as [[]|Hx].
    apply negb_false_iff, existsb_exists. exists x. split; [exact Hx|].
    rewrite Forall_forall in Hk. specialize (Hk x Hx). unfold keyed in Hk.
    destruct (col_target_date x) as [d|] eqn:Hd; [|congruence].
    now apply conflict_refl with d.
Qed.

(** A schedule that is healthy from some call on has no fault later. *)
Ltac healthy_from H := first [exact H | apply healthy_tl; healthy_from H].

Ltac no_later_fault :=
  match goal with
  | H : healthy _, E : hd false ?later = true |- _ =>
      rewrite (healthy_hd later) in E by healthy_from H; discriminate E
  end.

(** X13: a flush that raised can be retried.  When the pending records
    have a string date and the store is healthy afterwards, the next
    flush returns, empties the buffer and commits exactly the table one
    successful flush would have left, whether it was the [executemany] or
    the commit that had raised. *)
Theorem flush_retry (s s1 : state) (e : exn) (t : list Row) :
  opened (db s) = true -> working (db s) = Some t ->
  Forall keyed (_buf s) ->
  _flush s = (Raise e, s1) -> healthy (faults s1) ->
  let '(o, s2) := _flush s1 in
  o = Ok tt /\ _buf s2 = []
  /\ durable (db s2) = Some (upsert_many (_buf s) t)
  /\ working (db s2) = Some (upsert_many (_buf s) t).
Proof.
  intros Ho Hw Hk Hrun. revert Hrun. unfold _flush. unfold_spider.
  destruct (_buf s) as [|r buf] eqn:Hbuf; project; [discriminate|].
  rewrite Ho, Hw. project.
  destruct (hd false (faults s)) eqn:F1; project.
  - intros H Hh. injection H as _ <-. project. rewrite Hbuf. project.
    rewrite ?Ho, ?Hw. project. split_db; try no_later_fault; try congruence.
    auto.
  - destruct (hd false (tl (faults s))) eqn:F2; project; [|discriminate].
    intros H Hh. injection H as _ <-. project. rewrite Hbuf. project.
    split_db; try no_later_fault; try congruence.
    pose proof (upsert_many_idempotent (r :: buf) t Hk) as Hi.
    unfold upsert_many in *. simpl in *. rewrite Hi. auto.
Qed.

Lemma flush_retry_witness :
  let failed := snd (_flush sample_failing) in
  durable (db (snd (_flush failed)))
  = Some (upsert_many (_buf sample_failing) []).
Proof.
  intros failed.
  assert (Hk : Forall keyed (_buf sample_failing))
    by (repeat constructor; discriminate).
  assert (Hrun : _flush sample_failing = (Raise DatabaseError, failed))
    by (vm_compute; reflexivity).
  assert (Hh : healthy (faults failed)) by (vm_compute; constructor).
  pose proof (flush_retry sample_failing failed DatabaseError [] eq_refl
                eq_refl Hk Hrun Hh) as H.
  destruct (_flush failed) as [o s2]. simpl.
  now destruct H as (_ & _ & H & _).
Defined.

(* ------------------------------------------------------------------ *)
(** ** One detail page *)

Lemma meta_get_raises (m : list (pystr * pystr)) (key : pystr) (e : exn) :
  meta_get m key = Raise e -> e = KeyError.
Proof.
  induction m as [|[k v] m IH]; simpl; [congruence|].
  destruct (str_eqb k key); [discriminate|exact IH].
Qed.

Lemma flush_raises (s : state) (e : exn) (s' : state) :
  _flush s = (Raise e, s') -> e = DatabaseError.
Proof.
  unfold _flush. unfold_spider.
  destruct (_buf s) as [|r buf]; project; [discriminate|].
  split_db; intros H; congruence.
Qed.

(** What an [append] changes besides the buffer and the store. *)
Lemma append_frame (r : Row) (s : state) (o : outcome unit) (s' : state) :
  append r s = (o, s') ->
  _parsed s' = _parsed s + 1 /\ _queued s' = _queued s
  /\ yielded s' = yielded s /\ batch_size s' = batch_size s
  /\ target_date s' = target_date s
  /\ (o = Ok tt
      \/ (o = Raise DatabaseError /\ _buf s' = _buf s ++ [r])).
Proof.
  destruct (Z_lt_le_dec (Z.of_nat (List.length (_buf s)) + 1) (batch_size s))
    as [Hlt|Hge].
  - rewrite (append_below r s Hlt). intros H. injection H as <- <-. project.
    repeat split; auto.
  - rewrite (append_reaching r s Hge). intros H.
    destruct (flush_outcome _ _ _ H)
      as ((Hd & Hb & Hq & Hp & Hy) & _ & _ & Hraise & _). project.
    repeat split; auto.
    destruct o as [[]|e]; [now left|right].
    pose proof (flush_raises _ _ _ H) as ->.
    split; [reflexivity|]. now destruct (Hraise _ eq_refl).
Qed.

(** X14: a response without a code or a name in its [meta] makes
    [parse_detail] raise [KeyError] and change nothing.  Otherwise
    [_parsed] grows by one whether or not the step returns, and a step
    that does not return raised from the store and still holds the record
    it built at the end of the buffer.  [parse_detail] never yields a
    request nor touches [_queued]. *)
Theorem parse_detail_counts (response : Response) (s : state) :
  let '(o, s') := parse_detail response s in
  _queued s' = _queued s /\ yielded s' = yielded s
  /\ ((forall v, meta_get (resp_meta response) (str_of "code") <> Ok v)
      \/ (forall v, meta_get (resp_meta response) (str_of "name") <> Ok v) ->
      o = Raise KeyError /\ s' = s)
  /\ (forall code name,
        meta_get (resp_meta response) (str_of "code") = Ok code ->
        meta_get (resp_meta response) (str_of "name") = Ok name ->
        _parsed s' = _parsed s + 1
        /\ (o = Ok tt
            \/ (o = Raise DatabaseError
                /\ _buf s' = _buf s
                     ++ [build_row (target_date s) code name response]))).
Proof.
  unfold parse_detail. unfold bind at 1 2 3, lift, gets.
  destruct (meta_get _ (str_of "code")) as [code|e1] eqn:Hc.
  - destruct (meta_get _ (str_of "name")) as [name|e2] eqn:Hn.
    + unfold bind at 1.
      destruct (append _ s) as [o1 s1] eqn:Happ.
      destruct (append_frame _ _ _ _ Happ) as (Hp & Hq & Hy & _ & _ & Hout).
      assert (Hno : ~ ((forall v, Ok code <> Ok v)
                       \/ (forall v, Ok name <> Ok v)))
        by (intros [H|H]; [apply (H code)|apply (H name)]; reflexivity).
      destruct o1 as [[]|e].
      * unfold bind, log, modify, ret. destruct (_ =? 0); project;
          (split; [exact Hq|]); (split; [exact Hy|]);
          (split; [intros H; contradiction|]);
          intros c n Hc' Hn'; split; auto.
      * split; [exact Hq|]. split; [exact Hy|].
        split; [intros H; contradiction|].
        intros c n Hc' Hn'. injection Hc' as <-. injection Hn' as <-.
        split; [exact Hp|]. destruct Hout as [H|H]; [discriminate H|].
        right. destruct H as [H1 H2]. auto.
    + pose proof (meta_get_raises _ _ _ Hn) as ->.
      split; [reflexivity|]. split; [reflexivity|]. split; [auto|].
      intros c n _ Hbad. discriminate Hbad.
  - pose proof (meta_get_raises _ _ _ Hc) as ->.
    split; [reflexivity|]. split; [reflexivity|]. split; [auto|].
    intros c n Hbad. discriminate Hbad.
Qed.

Lemma parse_detail_counts_witness :
  parse_detail (mkResponse [] (Sel [] (fun _ => Ok [])) []) sample_spider
  = (Raise KeyError, sample_spider).
Proof.
  pose proof (parse_detail_counts
                (mkResponse [] (Sel [] (fun _ => Ok [])) []) sample_spider)
    as H.
  destruct (parse_detail _ sample_spider) as [o s'].
  destruct H as (_ & _ & H & _).
  destruct H as [-> ->]; [|reflexivity].
  left. intros v. discriminate.
Defined.
